(** * ttj: a shallow embedding of [index.js]

    The converter walks a directory tree, hands every [.ts]/[.tsx] file to a
    Babel/recast pipeline and rewrites it in place as [.js]/[.jsx].  The
    development below embeds the orchestration code of [index.js]: the
    configuration constants, [convertTypeScript], [processFile],
    [convertDirectory] with its inner [processDirectory], and [main].

    Effects are explicit.  A [State] carries the regular files of the file
    system, the operations that are made to fail, the closure counters of
    [convertDirectory] and a trace of every observable effect (file-system
    calls, calls of the type-stripping plugin, console lines) in program
    order.  Computations live in a state-and-exception monad [M]; [try_catch]
    is the [try { } catch] of the source. *)

From Stdlib Require Import ZArith Ascii List Lia.
From Stdlib Require String.
From stdpp Require Import base gmap strings list pretty.

Set Warnings "-register-all".

(** ** JavaScript strings

    Strings are [string]s of bytes.  The code only searches for, compares and
    cuts at ASCII characters, so working on the UTF-8 bytes gives the
    positions the UTF-16 code has, up to the width of the other characters. *)

Module JsString.

Definition lower_ascii (c : ascii) : ascii :=
  let n := nat_of_ascii c in
  if (65 <=? n)%nat && (n <=? 90)%nat then ascii_of_nat (n + 32) else c.

(** [String.prototype.toLowerCase], on the ASCII letters. *)
Fixpoint toLowerCase (s : string) : string :=
  match s with
  | EmptyString => EmptyString
  | String c s' => String (lower_ascii c) (toLowerCase s')
  end.

(** [s.startsWith(p)]. *)
Definition startsWith (s p : string) : bool := String.prefix p s.

(** [s.includes(needle)]: some position of [s] starts with [needle]. *)
Fixpoint includes (s needle : string) : bool :=
  String.prefix needle s ||
  match s with
  | EmptyString => false
  | String _ s' => includes s' needle
  end.

(** [s.slice(from, to)], with the clamping of negative and large indices
    of the language. *)
Definition clamp_index (len i : Z) : Z :=
  if (i <? 0)%Z then Z.max (len + i) 0 else Z.min i len.

Definition slice (s : string) (from to : Z) : string :=
  let len := Z.of_nat (String.length s) in
  let a := clamp_index len from in
  let b := clamp_index len to in
  String.substring (Z.to_nat a) (Z.to_nat (Z.max (b - a) 0)) s.

End JsString.

(** ** The [path] module of Node (POSIX flavour)

    [path.extname] is transcribed from Node's [lib/path.js]: one scan from
    the last character to the first, with the five loop variables of the
    original. *)

Module Path.

Record scan := Scan {
  startDot : Z;
  startPart : Z;
  endIdx : Z;
  matchedSlash : bool;
  preDotState : Z
}.

Definition scan0 : scan := Scan (-1) 0 (-1) true 0.

Definition see_char (i : nat) (code : ascii) (st : scan) : scan :=
  let st1 :=
    if (endIdx st =? -1)%Z
    then Scan (startDot st) (startPart st) (Z.of_nat i + 1) false (preDotState st)
    else st in
  if Ascii.eqb code "."
  then
    if (startDot st1 =? -1)%Z
    then Scan (Z.of_nat i) (startPart st1) (endIdx st1) (matchedSlash st1) (preDotState st1)
    else if negb (preDotState st1 =? 1)%Z
    then Scan (startDot st1) (startPart st1) (endIdx st1) (matchedSlash st1) 1
    else st1
  else
    if negb (startDot st1 =? -1)%Z
    then Scan (startDot st1) (startPart st1) (endIdx st1) (matchedSlash st1) (-1)
    else st1.

(** [for (let i = path.length - 1; i >= 0; --i)]: [n] is [i + 1]. *)
Fixpoint extname_loop (path : string) (n : nat) (st : scan) : scan :=
  match n with
  | O => st
  | S i =>
    match String.get i path with
    | None => st
    | Some code =>
      if Ascii.eqb code "/"
      then
        if negb (matchedSlash st)
        then Scan (startDot st) (Z.of_nat i + 1) (endIdx st) (matchedSlash st) (preDotState st)
        else extname_loop path i st
      else extname_loop path i (see_char i code st)
    end
  end.

Definition extname (path : string) : string :=
  let st := extname_loop path (String.length path) scan0 in
  if (startDot st =? -1)%Z
     || (endIdx st =? -1)%Z
     || (preDotState st =? 0)%Z
     || ((preDotState st =? 1)%Z
         && (startDot st =? endIdx st - 1)%Z
         && (startDot st =? startPart st + 1)%Z)
  then ""
  else JsString.slice path (startDot st) (endIdx st).

(** A path that ends in a separator names a directory. *)
Definition trailing_slash (path : string) : bool :=
  match String.length path with
  | O => false
  | S i => match String.get i path with
           | Some c => Ascii.eqb c "/"
           | None => false
           end
  end.

(** [path.basename(path)] without a suffix, from the same file of Node:
    the component between the last separator that is followed by a name
    and the trailing separators. *)
Fixpoint basename_loop (path : string) (n : nat) (lastIdx : Z) (matchedSlash : bool)
  : Z * Z :=
  match n with
  | O => (0%Z, lastIdx)
  | S i =>
    match String.get i path with
    | None => (0%Z, lastIdx)
    | Some code =>
      if Ascii.eqb code "/"
      then if negb matchedSlash then (Z.of_nat i + 1, lastIdx)%Z
           else basename_loop path i lastIdx matchedSlash
      else if (lastIdx =? -1)%Z
           then basename_loop path i (Z.of_nat i + 1)%Z false
           else basename_loop path i lastIdx matchedSlash
    end
  end.

Definition basename (path : string) : string :=
  let '(start, lastIdx) := basename_loop path (String.length path) (-1) true in
  if (lastIdx =? -1)%Z then "" else JsString.slice path start lastIdx.

End Path.

(** ** Configuration constants *)

Definition SUPPORTED_EXTENSIONS : gset string := {[ ".ts"; ".tsx" ]}.

Definition OUTPUT_EXTENSIONS : gmap string string :=
  <[ ".ts" := ".js" ]> (<[ ".tsx" := ".jsx" ]> ∅).

Definition IGNORED_DIRS : gset string :=
  {[ "node_modules"; ".git"; ".vscode"; ".idea" ]}.

(** [OUTPUT_EXTENSIONS[ext]] inside a string concatenation: a missing key
    reads [undefined], which concatenates as the word. *)
Definition output_extension (ext : string) : string :=
  match OUTPUT_EXTENSIONS !! ext with
  | Some e => e
  | None => "undefined"
  end.

(** ** Observable effects *)

Inductive channel := ConsoleLog | ConsoleWarn | ConsoleError.

(** Arguments of a console call: strings, and the object literal
    [{ dir, file, dryRun }] of the verbose line. *)
Inductive arg :=
| AStr (s : string)
| AParams (dir : string) (file : option string) (dryRun : bool).

Inductive Event :=
| EvReadFile (path : string)
| EvWriteFile (path data : string)
| EvUnlink (path : string)
| EvReaddir (path : string)
| EvTransform (isTSX : bool) (sourceCode : string)
| EvConsole (ch : channel) (args : list arg).

Inductive fsop := OpRead | OpWrite | OpUnlink.

(** [files]: the regular files, by path.  [fails]: the calls the
    environment refuses (permissions, a full disk, a vanished parent), with
    the message of the error.  [successCount] and [failureCount] are the two
    closure variables of [convertDirectory]. *)
Record State := mkState {
  files : gmap string string;
  fails : fsop → string → option string;
  trace : list Event;
  successCount : nat;
  failureCount : nat
}.

(** What a call of the environment or of a library does: return or throw
    an [Error] with a message. *)
Inductive completion (A : Type) :=
| Returns (a : A)
| Throws (message : string).
Arguments Returns {A} a.
Arguments Throws {A} message.

(** ** The state-and-exception monad *)

Inductive outcome (A : Type) :=
| Ok (a : A)
| Throw (message : string)
| Exit (code : Z).
Arguments Ok {A} a.
Arguments Throw {A} message.
Arguments Exit {A} code.

Definition M (A : Type) : Type := State → outcome A * State.

Definition ret {A} (a : A) : M A := fun s => (Ok a, s).

Definition bind {A B} (m : M A) (k : A → M B) : M B :=
  fun s =>
    match m s with
    | (Ok a, s') => k a s'
    | (Throw msg, s') => (Throw msg, s')
    | (Exit c, s') => (Exit c, s')
    end.

Definition throw {A} (msg : string) : M A := fun s => (Throw msg, s).

(** [process.exit(code)]: nothing after it runs, no handler sees it. *)
Definition process_exit {A} (code : Z) : M A := fun s => (Exit code, s).

(** [try { m } catch (error) { h error.message }]. *)
Definition try_catch {A} (m : M A) (h : string → M A) : M A :=
  fun s =>
    match m s with
    | (Throw msg, s') => h msg s'
    | r => r
    end.

Declare Scope js_scope.
Delimit Scope js_scope with js.
Notation "x <- c1 ;; c2" := (bind c1 (fun x => c2))
  (at level 100, c1 at next level, right associativity) : js_scope.
Notation "c1 ;; c2" := (bind c1 (fun _ => c2))
  (at level 100, right associativity) : js_scope.
Open Scope js_scope.

Definition log_events (s : State) (evs : list Event) : State :=
  mkState (files s) (fails s) (trace s ++ evs) (successCount s) (failureCount s).

Definition with_files (s : State) (fs : gmap string string) : State :=
  mkState fs (fails s) (trace s) (successCount s) (failureCount s).

Definition emit (e : Event) : M unit :=
  fun s => (Ok tt, log_events s [e]).

Definition lift {A} (r : completion A) : M A :=
  fun s =>
    match r with
    | Returns a => (Ok a, s)
    | Throws msg => (Throw msg, s)
    end.

Definition console (ch : channel) (args : list arg) : M unit :=
  emit (EvConsole ch args).

Definition set_files (fs : gmap string string) : M unit :=
  fun s => (Ok tt, with_files s fs).

(** The events a computation adds to the trace when run from [s]. *)
Definition events_of {A} (m : M A) (s : State) : list Event :=
  drop (length (trace s)) (trace (snd (m s))).

(** The calls that change the file system. *)
Definition is_mutation (ev : Event) : bool :=
  match ev with
  | EvWriteFile _ _ | EvUnlink _ => true
  | _ => false
  end.

Definition forM_ {A} (f : A → M unit) : list A → M unit :=
  fix loop (l : list A) : M unit :=
    match l with
    | [] => ret tt
    | x :: l' => f x ;; loop l'
    end.

(** ** The [fs/promises] calls

    Every call is recorded when it is made.  A path with a trailing
    separator never opens a regular file (ENOTDIR, or EISDIR when a
    directory is there).  A refused call leaves [files] as it was. *)

Definition read_result (path : string) (s : State) : completion string :=
  if Path.trailing_slash path then Throws "ENOTDIR: not a directory"
  else match fails s OpRead path with
       | Some message => Throws message
       | None =>
         match files s !! path with
         | Some data => Returns data
         | None => Throws "ENOENT: no such file or directory"
         end
       end.

Definition write_result (path data : string) (s : State)
  : completion (gmap string string) :=
  if Path.trailing_slash path then Throws "EISDIR: illegal operation on a directory"
  else match fails s OpWrite path with
       | Some message => Throws message
       | None => Returns (<[ path := data ]> (files s))
       end.

Definition unlink_result (path : string) (s : State)
  : completion (gmap string string) :=
  if Path.trailing_slash path then Throws "ENOTDIR: not a directory"
  else match fails s OpUnlink path with
       | Some message => Throws message
       | None =>
         match files s !! path with
         | Some _ => Returns (delete path (files s))
         | None => Throws "ENOENT: no such file or directory"
         end
       end.

Definition fs_readFile (path : string) : M string :=
  emit (EvReadFile path) ;;
  fun s => lift (read_result path s) s.

Definition fs_writeFile (path data : string) : M unit :=
  emit (EvWriteFile path data) ;;
  fun s => (fs <- lift (write_result path data s) ;; set_files fs) s.

Definition fs_unlink (path : string) : M unit :=
  emit (EvUnlink path) ;;
  fun s => (fs <- lift (unlink_result path s) ;; set_files fs) s.

(** ** The transform engine

    recast's [parse] and [print] and Babel's [transformFromAstSync] with the
    TypeScript plugin are the external pipeline; each either returns or
    throws. *)

Class Engine := {
  ast : Type;
  parse : string → completion ast;
  transformFromAstSync : ast → string → bool → completion ast;
  print : ast → completion string
}.

(** ** The directory tree

    What [fs.readdir(dir, { withFileTypes: true })] answers, for a directory
    and everything below it: the [Dirent]s in enumeration order, each
    directory with the answer for itself (the entries, or the error that
    enumerating it throws).  [EntOther] is an entry that is neither [isDirectory()] nor
    [isFile()]: a symbolic link, a socket, a FIFO. *)

Inductive Dirent :=
| EntFile (name : string)
| EntDir (name : string) (listing : completion (list Dirent))
| EntOther (name : string).

Section TreeInduction.

Variable P : Dirent → Prop.
Hypothesis Hfile : ∀ n, P (EntFile n).
Hypothesis Hother : ∀ n, P (EntOther n).
Hypothesis Hunreadable : ∀ n message, P (EntDir n (Throws message)).
Hypothesis Hdir : ∀ n entries, Forall P entries → P (EntDir n (Returns entries)).

(** Induction on a directory tree, with the hypothesis for every entry of
    a listing. *)
Fixpoint Dirent_tree_ind (e : Dirent) : P e :=
  match e with
  | EntFile n => Hfile n
  | EntOther n => Hother n
  | EntDir n (Throws message) => Hunreadable n message
  | EntDir n (Returns entries) =>
    Hdir n entries
      ((fix all (l : list Dirent) : Forall P l :=
          match l with
          | [] => @List.Forall_nil Dirent P
          | x :: l' => @List.Forall_cons Dirent P x l' (Dirent_tree_ind x) (all l')
          end) entries)
  end.

End TreeInduction.

Record Options := mkOptions {
  dir : string;
  file : option string;
  dryRun : bool;
  verbose : bool
}.

(** ** The program *)

Section Program.

Context `{Engine}.

(** [path.join] of Node, which also normalises its result.  Nothing below
    depends on how; it stays a parameter. *)
Variable path_join : string → string → string.

Definition convertTypeScript (sourceCode : string) : M (option string) :=
  try_catch
    (tree <- lift (parse sourceCode) ;;
     let isTSX := JsString.includes sourceCode "tsx" in
     emit (EvTransform isTSX sourceCode) ;;
     transformedAST <- lift (transformFromAstSync tree sourceCode isTSX) ;;
     code <- lift (print transformedAST) ;;
     ret (Some code))
    (fun message =>
       console ConsoleError [AStr "Conversion error:"; AStr message] ;;
       ret None).

(** [filePath.slice(0, -ext.length) + newExt]. *)
Definition new_path (filePath ext : string) : string :=
  JsString.slice filePath 0 (- Z.of_nat (String.length ext))
    +:+ output_extension ext.

Definition processFile (filePath : string) : M bool :=
  let ext := JsString.toLowerCase (Path.extname filePath) in
  if negb (bool_decide (ext ∈ SUPPORTED_EXTENSIONS))
  then
    console ConsoleWarn [AStr ("Skipping unsupported file type: " +:+ filePath)] ;;
    ret false
  else
    try_catch
      (sourceCode <- fs_readFile filePath ;;
       convertedCode <- convertTypeScript sourceCode ;;
       match convertedCode with
       | None | Some EmptyString => throw "Conversion failed"
       | Some code =>
         let newPath := new_path filePath ext in
         fs_writeFile newPath code ;;
         fs_unlink filePath ;;
         console ConsoleLog
           [AStr ("Successfully converted: " +:+ Path.basename filePath
                  +:+ " â†’ " +:+ Path.basename newPath)] ;;
         ret true
       end)
      (fun message =>
         console ConsoleError
           [AStr ("Failed to process file " +:+ filePath +:+ ":"); AStr message] ;;
         ret false).

Definition count_success (s : State) : State :=
  mkState (files s) (fails s) (trace s) (S (successCount s)) (failureCount s).

Definition count_failure (s : State) : State :=
  mkState (files s) (fails s) (trace s) (successCount s) (S (failureCount s)).

(** [successCount++] and [failureCount++]. *)
Definition incr_success : M unit := fun s => (Ok tt, count_success s).
Definition incr_failure : M unit := fun s => (Ok tt, count_failure s).

(** [!IGNORED_DIRS.has(entry.name) && !entry.name.startsWith('.')]. *)
Definition descends (name : string) : bool :=
  negb (bool_decide (name ∈ IGNORED_DIRS)) && negb (JsString.startsWith name ".").

(** The body of [processDirectory], open in the function applied to the
    entries.  [fs.readdir] is the recorded call and the answer [listing]. *)
Definition processDirectoryWith (visit : string → Dirent → M unit)
    (currentDir : string) (listing : completion (list Dirent)) : M unit :=
  try_catch
    (emit (EvReaddir currentDir) ;;
     match listing with
     | Throws message => throw message
     | Returns entries => forM_ (visit currentDir) entries
     end)
    (fun message =>
       console ConsoleError
         [AStr ("Failed to read directory " +:+ currentDir +:+ ":"); AStr message] ;;
       incr_failure).

(** One turn of [for (const entry of entries)]. *)
Fixpoint processEntry (currentDir : string) (entry : Dirent) {struct entry} : M unit :=
  match entry with
  | EntDir name listing =>
    let fullPath := path_join currentDir name in
    if descends name
    then processDirectoryWith processEntry fullPath listing
    else ret tt
  | EntFile name =>
    let fullPath := path_join currentDir name in
    result <- processFile fullPath ;;
    if result then incr_success else incr_failure
  | EntOther name => ret tt
  end.

Definition processDirectory : string → completion (list Dirent) → M unit :=
  processDirectoryWith processEntry.

Definition reset_counters : M unit :=
  fun s => (Ok tt, mkState (files s) (fails s) (trace s) 0 0).

Definition read_counters : M (nat * nat) :=
  fun s => (Ok (successCount s, failureCount s), s).

(** [convertDirectory(dirPath)]; [listing] is the tree found at [dirPath].
    The pair is [{ success, failure }]. *)
Definition convertDirectory (dirPath : string) (listing : completion (list Dirent))
  : M (nat * nat) :=
  reset_counters ;;
  processDirectory dirPath listing ;;
  read_counters.

(** [if (file)]: [undefined] and the empty string are falsy. *)
Definition truthy (file : option string) : option string :=
  match file with
  | Some EmptyString | None => None
  | Some f => Some f
  end.

Definition main (opts : Options) (listing : completion (list Dirent)) : M unit :=
  (if verbose opts
   then console ConsoleLog
          [AStr "Runtime parameters:"; AParams (dir opts) (file opts) (dryRun opts)]
   else ret tt) ;;
  (if dryRun opts
   then console ConsoleLog
          [AStr "Dry run mode: Only showing what files would be converted"]
   else ret tt) ;;
  try_catch
    (match truthy (file opts) with
     | Some f =>
       if dryRun opts
       then console ConsoleLog [AStr ("Would convert file: " +:+ f)]
       else (processFile f ;; ret tt)
     | None =>
       if dryRun opts
       then console ConsoleLog [AStr ("Would scan directory: " +:+ dir opts)]
       else
         stats <- convertDirectory (dir opts) listing ;;
         console ConsoleLog
           [AStr ("Conversion complete! Success: " +:+ pretty (fst stats)
                  +:+ ", Failures: " +:+ pretty (snd stats))]
     end)
    (fun message =>
       console ConsoleError [AStr "Error during processing:"; AStr message] ;;
       process_exit 1).

(** The exit status of the process: [process.exit]'s argument, [1] for a
    rejection of [main()] nobody handles, [0] when the script runs out. *)
Definition exit_status (opts : Options) (listing : completion (list Dirent))
    (s : State) : Z * State :=
  match main opts listing s with
  | (Ok _, s') => (0%Z, s')
  | (Throw _, s') => (1%Z, s')
  | (Exit code, s') => (code, s')
  end.

End Program.

(** ** Runs of the converter, as relations

    [ConvRun] and [FileRun] list the ways through [convertTypeScript] and
    [processFile]: the value returned, the events added to the trace and the
    files left.  The functions above are shown to follow them. *)

Section Runs.

Context `{Engine}.

Definition conversion_error (message : string) : Event :=
  EvConsole ConsoleError [AStr "Conversion error:"; AStr message].

Definition skip_warning (filePath : string) : Event :=
  EvConsole ConsoleWarn [AStr ("Skipping unsupported file type: " +:+ filePath)].

Definition file_error (filePath message : string) : Event :=
  EvConsole ConsoleError
    [AStr ("Failed to process file " +:+ filePath +:+ ":"); AStr message].

Definition success_line (filePath newPath : string) : Event :=
  EvConsole ConsoleLog
    [AStr ("Successfully converted: " +:+ Path.basename filePath
           +:+ " â†’ " +:+ Path.basename newPath)].

Definition directory_error (currentDir message : string) : Event :=
  EvConsole ConsoleError
    [AStr ("Failed to read directory " +:+ currentDir +:+ ":"); AStr message].

Inductive ConvRun (src : string) : option string → list Event → Prop :=
| conv_parse_throws msg :
    parse src = Throws msg →
    ConvRun src None [conversion_error msg]
| conv_transform_throws tree msg :
    parse src = Returns tree →
    transformFromAstSync tree src (JsString.includes src "tsx") = Throws msg →
    ConvRun src None
      [EvTransform (JsString.includes src "tsx") src; conversion_error msg]
| conv_print_throws tree out msg :
    parse src = Returns tree →
    transformFromAstSync tree src (JsString.includes src "tsx") = Returns out →
    print out = Throws msg →
    ConvRun src None
      [EvTransform (JsString.includes src "tsx") src; conversion_error msg]
| conv_returns tree out code :
    parse src = Returns tree →
    transformFromAstSync tree src (JsString.includes src "tsx") = Returns out →
    print out = Returns code →
    ConvRun src (Some code) [EvTransform (JsString.includes src "tsx") src].

(** What a step of the walk leaves alone: the refusals; and the trace only
    grows. *)
Definition steps (s s' : State) : Prop :=
  fails s' = fails s ∧ ∃ evs : list Event, trace s' = trace s ++ evs.

(** The name begins with the dot of hidden entries. *)
Definition hidden (name : string) : Prop := ∃ rest, name = "." +:+ rest.

(** The line of [--verbose] and the banner of [--dry-run]. *)
Definition params_line (opts : Options) : Event :=
  EvConsole ConsoleLog
    [AStr "Runtime parameters:"; AParams (dir opts) (file opts) (dryRun opts)].

Definition verbose_events (opts : Options) : list Event :=
  if verbose opts then [params_line opts] else [].

Definition dry_run_banner : Event :=
  EvConsole ConsoleLog
    [AStr "Dry run mode: Only showing what files would be converted"].

(** [!convertedCode]: [null] and the empty string. *)
Definition falsy (r : option string) : Prop := r = None ∨ r = Some "".

Inductive FileRun (p : string) (s : State)
  : bool → list Event → gmap string string → Prop :=
| run_skipped :
    JsString.toLowerCase (Path.extname p) ∉ SUPPORTED_EXTENSIONS →
    FileRun p s false [skip_warning p] (files s)
| run_read_throws msg :
    JsString.toLowerCase (Path.extname p) ∈ SUPPORTED_EXTENSIONS →
    read_result p s = Throws msg →
    FileRun p s false [EvReadFile p; file_error p msg] (files s)
| run_conversion_failed src r cev :
    JsString.toLowerCase (Path.extname p) ∈ SUPPORTED_EXTENSIONS →
    read_result p s = Returns src →
    ConvRun src r cev → falsy r →
    FileRun p s false
      (EvReadFile p :: cev ++ [file_error p "Conversion failed"]) (files s)
| run_write_throws src code cev msg :
    JsString.toLowerCase (Path.extname p) ∈ SUPPORTED_EXTENSIONS →
    read_result p s = Returns src →
    ConvRun src (Some code) cev → code ≠ "" →
    write_result (new_path p (JsString.toLowerCase (Path.extname p))) code s
      = Throws msg →
    FileRun p s false
      (EvReadFile p :: cev
       ++ [EvWriteFile (new_path p (JsString.toLowerCase (Path.extname p))) code;
           file_error p msg])
      (files s)
| run_unlink_throws src code cev fs1 msg :
    JsString.toLowerCase (Path.extname p) ∈ SUPPORTED_EXTENSIONS →
    read_result p s = Returns src →
    ConvRun src (Some code) cev → code ≠ "" →
    write_result (new_path p (JsString.toLowerCase (Path.extname p))) code s
      = Returns fs1 →
    unlink_result p (with_files s fs1) = Throws msg →
    FileRun p s false
      (EvReadFile p :: cev
       ++ [EvWriteFile (new_path p (JsString.toLowerCase (Path.extname p))) code;
           EvUnlink p; file_error p msg])
      fs1
| run_converted src code cev fs1 fs2 :
    JsString.toLowerCase (Path.extname p) ∈ SUPPORTED_EXTENSIONS →
    read_result p s = Returns src →
    ConvRun src (Some code) cev → code ≠ "" →
    write_result (new_path p (JsString.toLowerCase (Path.extname p))) code s
      = Returns fs1 →
    unlink_result p (with_files s fs1) = Returns fs2 →
    FileRun p s true
      (EvReadFile p :: cev
       ++ [EvWriteFile (new_path p (JsString.toLowerCase (Path.extname p))) code;
           EvUnlink p;
           success_line p (new_path p (JsString.toLowerCase (Path.extname p)))])
      fs2.

End Runs.

(** ** A sample installation

    A stand-in engine (it returns the source as it is and rejects a source
    that contains [@@]), the join of a normalised directory with a name, and
    the project directory of the scenarios. *)

Module Sample.

Definition engine : Engine := {|
  ast := string;
  parse := fun src =>
    if JsString.includes src "@@" then Throws "Unexpected token" else Returns src;
  transformFromAstSync := fun tree _ _ => Returns tree;
  print := fun tree => Returns tree
|}.

Definition join (d n : string) : string := d +:+ "/" +:+ n.

Definition disk (fs : gmap string string) : State :=
  mkState fs (fun _ _ => None) [] 0 0.

Definition project : gmap string string :=
  <[ "proj/a.ts" := "let a: number = 1;" ]>
  (<[ "proj/b.tsx" := "// tsx
const b = <div/>;" ]>
  (<[ "proj/c.json" := "{}" ]> ∅)).

Definition project_tree : completion (list Dirent) :=
  Returns [EntFile "a.ts"; EntFile "b.tsx"; EntFile "c.json"].

(** The project with an older [a.js] next to [a.ts]. *)
Definition stale : gmap string string :=
  <[ "proj/a.js" := "var a = 0;" ]> project.

(** A plain [.ts] file whose text mentions [tsx]. *)
Definition mixed : gmap string string :=
  <[ "proj/m.ts" := "const kind = 'tsx';" ]> ∅.

Definition single (f : string) : Options := mkOptions "proj" (Some f) false false.

Definition preview (f : string) : Options := mkOptions "proj" (Some f) true true.

End Sample.

(** ** Reference functions for the walk and the engine

    What the statements about whole walks are measured against: the entries
    a walk counts, the engine as one function, and the paths a walk may
    write and delete. *)

(** The entries of a tree that end in one of the two counters: every file
    entry, and every directory that is entered and cannot be enumerated.
    Directories that are not entered, with all they hold, and entries that
    are neither files nor directories count for nothing. *)
Fixpoint counted (e : Dirent) : nat :=
  match e with
  | EntFile _ => 1
  | EntOther _ => 0
  | EntDir name listing =>
    if descends name
    then match listing with
         | Throws _ => 1
         | Returns entries => list_sum (map counted entries)
         end
    else 0
  end.

Definition counted_listing (listing : completion (list Dirent)) : nat :=
  match listing with
  | Throws _ => 1
  | Returns entries => list_sum (map counted entries)
  end.

(** The three calls of the engine, one after the other. *)
Definition pipeline `{Engine} (sourceCode : string) : completion string :=
  match parse sourceCode with
  | Throws message => Throws message
  | Returns tree =>
    match transformFromAstSync tree sourceCode (JsString.includes sourceCode "tsx") with
    | Throws message => Throws message
    | Returns transformedAST => print transformedAST
    end
  end.

(** The three calls of the engine with a given markup mode. *)
Definition pipeline_with `{Engine} (isTSX : bool) (sourceCode : string)
  : completion string :=
  match parse sourceCode with
  | Throws message => Throws message
  | Returns tree =>
    match transformFromAstSync tree sourceCode isTSX with
    | Throws message => Throws message
    | Returns transformedAST => print transformedAST
    end
  end.

(** [needle] occurs somewhere in [text]. *)
Definition occurs (needle text : string) : Prop :=
  ∃ pre post, text = pre +:+ needle +:+ post.

(** An event a walk is allowed: a write only to a path that ends in [.js]
    or [.jsx], an unlink only of a path whose extension, in lower case, is
    [.ts] or [.tsx]. *)
Definition safe_event (ev : Event) : Prop :=
  match ev with
  | EvWriteFile path _ => ∃ stem, path = stem +:+ ".js" ∨ path = stem +:+ ".jsx"
  | EvUnlink path =>
    JsString.toLowerCase (Path.extname path) ∈ SUPPORTED_EXTENSIONS
  | _ => True
  end.

(** No file entry that a walk from [cur] reaches has a recognised
    extension. *)
Fixpoint nothing_to_convert (join : string → string → string) (cur : string)
    (e : Dirent) : Prop :=
  match e with
  | EntFile name =>
    JsString.toLowerCase (Path.extname (join cur name)) ∉ SUPPORTED_EXTENSIONS
  | EntOther _ => True
  | EntDir name listing =>
    if descends name
    then match listing with
         | Throws _ => True
         | Returns entries =>
           (fix all (l : list Dirent) : Prop :=
              match l with
              | [] => True
              | x :: l' => nothing_to_convert join (join cur name) x ∧ all l'
              end) entries
         end
    else True
  end.

(** The sum of the two counters. *)
Definition total (s : State) : nat := successCount s + failureCount s.

(** A character that is neither the dot nor the separator. *)
Definition plain (c : ascii) : Prop := c ≠ "."%char ∧ c ≠ "/"%char.

(** An entry the loop passes over: neither a file nor a directory, or a
    directory that is ignored or hidden. *)
Definition passed_over (e : Dirent) : Prop :=
  match e with
  | EntFile _ => False
  | EntOther _ => True
  | EntDir name _ => name ∈ IGNORED_DIRS ∨ hidden name
  end.

(** The last line of a run over a directory. *)
Definition summary_line (success failure : nat) : Event :=
  EvConsole ConsoleLog
    [AStr ("Conversion complete! Success: " +:+ pretty success
           +:+ ", Failures: " +:+ pretty failure)].

(** Further cases of the sample installation. *)

Module Cases.

(** An empty source file. *)
Definition blank : gmap string string := <[ "proj/empty.ts" := "" ]> ∅.

(** A source the engine rejects. *)
Definition broken : gmap string string := <[ "proj/broken.ts" := "let @@ = ;" ]> ∅.

(** The project on a disk where [a.ts] cannot be removed. *)
Definition pinned : State :=
  mkState Sample.project
    (fun op path =>
       match op with
       | OpUnlink => if String.eqb path "proj/a.ts"
                     then Some "EPERM: operation not permitted" else None
       | _ => None
       end)
    [] 0 0.

(** A tree with a hidden directory, an ignored one, a link, an unreadable
    directory and a nested one. *)
Definition tree : completion (list Dirent) :=
  Returns
    [EntFile "a.ts";
     EntDir ".git" (Returns [EntFile "config.ts"]);
     EntDir "node_modules" (Returns [EntFile "index.ts"]);
     EntOther "link";
     EntDir "locked" (Throws "EACCES: permission denied");
     EntDir "src" (Returns [EntFile "b.tsx"; EntFile "c.json"])].

(** The entries of the project after a run. *)
Definition converted : list Dirent :=
  [EntFile "a.js"; EntFile "b.jsx"; EntFile "c.json"].

Definition scan (d : string) : Options := mkOptions d None false false.

(** A stand-in engine for which the markup mode matters: without it, the
    transform rejects a source that holds an element. *)
Definition strict : Engine := {|
  ast := string;
  parse := fun src => Returns src;
  transformFromAstSync := fun tree _ isTSX =>
    if JsString.includes tree "<" && negb isTSX
    then Throws "Unexpected token"
    else Returns tree;
  print := fun tree => Returns tree
|}.

(** A plain [.ts] file with an element, whose text mentions [tsx]. *)
Definition widget_text : string := "// tsx
const w = <b/>;".

Definition widget : gmap string string := <[ "proj/w.ts" := widget_text ]> ∅.

(** The project with a directory [src] of two files. *)
Definition nested : gmap string string :=
  <[ "proj/src/b.tsx" := "// tsx" ]> Sample.project.

(** A hidden file, and a file with the name of an ignored directory. *)
Definition dotted : gmap string string :=
  <[ "proj/.setup.ts" := "let s = 0;" ]> (<[ "proj/node_modules" := "x" ]> ∅).

End Cases.

(** * Properties *)

(** ** The path functions on examples of the Node documentation *)

Example extname_ts : Path.extname "src/a.ts" = ".ts".
Proof. reflexivity. Qed.
Example extname_upper : JsString.toLowerCase (Path.extname "B.TSX") = ".tsx".
Proof. reflexivity. Qed.
Example extname_dotfile : Path.extname "proj/.gitignore" = "".
Proof. reflexivity. Qed.
Example extname_dotdir : Path.extname "a.b/c" = "".
Proof. reflexivity. Qed.
Example extname_slash : Path.extname "a.ts/" = ".ts".
Proof. reflexivity. Qed.
Example extname_dots : Path.extname ".." = "".
Proof. reflexivity. Qed.
Example extname_trail : Path.extname "a." = ".".
Proof. reflexivity. Qed.
Example slice_neg : JsString.slice "src/a.ts" 0 (-3) = "src/a".
Proof. reflexivity. Qed.

Example basename_nested : Path.basename "proj/src/a.ts" = "a.ts".
Proof. reflexivity. Qed.
Example basename_trailing : Path.basename "proj/src/" = "src".
Proof. reflexivity. Qed.

(** ** Strings *)

Section StringFacts.

Lemma length_toLowerCase (s : string) :
  String.length (JsString.toLowerCase s) = String.length s.
Proof. induction s as [|c s IH]; simpl; congruence. Qed.

Lemma substring_split (s : string) (n : nat) :
  (n ≤ String.length s)%nat →
  String.substring 0 n s +:+ String.substring n (String.length s - n) s = s.
Proof.
  assert (Hall : ∀ t, String.substring 0 (String.length t) t = t).
  { induction t as [|d t IHt]; simpl; congruence. }
  revert n; induction s as [|c s IH]; intros [|n] Hn; simpl in *; try lia.
  - reflexivity.
  - rewrite Hall. reflexivity.
  - change (String c (String.substring 0 n s
                      +:+ String.substring n (String.length s - n) s) = String c s).
    rewrite IH by lia. reflexivity.
Qed.

Lemma length_substring (s : string) (n m : nat) :
  (n + m ≤ String.length s)%nat → String.length (String.substring n m s) = m.
Proof.
  revert n m; induction s as [|c s IH]; intros [|n] [|m] Hn; simpl in *;
    try lia; try reflexivity.
  - rewrite (IH 0 m) by lia. reflexivity.
  - apply (IH n 0). lia.
  - apply (IH n (S m)). lia.
Qed.

Lemma length_append (s t : string) :
  String.length (s +:+ t) = String.length s + String.length t.
Proof.
  induction s as [|c s IH]; [reflexivity|].
  change (S (String.length (s +:+ t)) = S (String.length s) + String.length t).
  rewrite IH. reflexivity.
Qed.

End StringFacts.

Section ExtnameFacts.

Import Path.

Lemma see_char_endIdx i c st :
  endIdx st ≠ (-1)%Z → endIdx (see_char i c st) = endIdx st.
Proof.
  intros Hne. unfold see_char.
  destruct (Z.eqb_spec (endIdx st) (-1)) as [?|_]; [done|].
  repeat (case_match; simpl; try reflexivity).
Qed.

Lemma extname_loop_endIdx p n st :
  endIdx st ≠ (-1)%Z → endIdx (extname_loop p n st) = endIdx st.
Proof.
  revert st; induction n as [|i IH]; intros st Hne; simpl; [done|].
  destruct (String.get i p) as [c|]; [|done].
  destruct (Ascii.eqb c "/").
  - destruct (matchedSlash st); simpl; [by apply IH | done].
  - rewrite IH; rewrite see_char_endIdx; done.
Qed.

Lemma see_char_startDot i c st :
  startDot (see_char i c st) = startDot st ∨ startDot (see_char i c st) = Z.of_nat i.
Proof.
  unfold see_char. repeat (case_match; simpl; auto).
Qed.

Lemma extname_loop_startDot p n st (L : Z) :
  (Z.of_nat n ≤ L)%Z →
  (startDot st = -1 ∨ Z.of_nat n ≤ startDot st < L)%Z →
  (startDot (extname_loop p n st) = -1
   ∨ 0 ≤ startDot (extname_loop p n st) < L)%Z.
Proof.
  revert st; induction n as [|i IH]; intros st HL Hst; simpl; [lia|].
  destruct (String.get i p) as [c|]; [|lia].
  destruct (Ascii.eqb c "/").
  - destruct (matchedSlash st); simpl; [apply IH; lia | lia].
  - apply IH; [lia|].
    destruct (see_char_startDot i c st) as [-> | ->]; lia.
Qed.

(** On a path without a trailing separator a non-empty extension is the
    suffix of the path that starts at the last dot. *)
Lemma extname_suffix (p : string) :
  trailing_slash p = false → extname p ≠ "" →
  ∃ sd, (sd < String.length p)%nat ∧
        extname p = String.substring sd (String.length p - sd) p.
Proof.
  unfold trailing_slash, extname.
  destruct (String.length p) as [|i] eqn:HL; [done|].
  cbn [extname_loop].
  destruct (String.get i p) as [c|] eqn:Hget; [|done].
  intros ->.
  set (st1 := see_char i c scan0).
  assert (Hend : endIdx st1 = Z.of_nat (S i)).
  { unfold st1, see_char; simpl. repeat (case_match; simpl); lia. }
  assert (Hsd : (startDot st1 = -1 ∨ Z.of_nat i ≤ startDot st1 < Z.of_nat (S i))%Z).
  { destruct (see_char_startDot i c scan0) as [E|E]; fold st1 in E; rewrite E; simpl; lia. }
  pose proof (extname_loop_endIdx p i st1 ltac:(lia)) as He.
  pose proof (extname_loop_startDot p i st1 (Z.of_nat (S i)) ltac:(lia) Hsd) as Hs.
  set (st := extname_loop p i st1) in *.
  destruct (Z.eqb_spec (startDot st) (-1)) as [?|Hne]; [done|].
  case_match; [done|]. intros _.
  exists (Z.to_nat (startDot st)). split; [lia|].
  unfold JsString.slice, JsString.clamp_index. rewrite HL, He, Hend.
  destruct (Z.ltb_spec (startDot st) 0); [lia|].
  destruct (Z.ltb_spec (Z.of_nat (S i)) 0); [lia|].
  f_equal; lia.
Qed.

End ExtnameFacts.

Section PathFacts.

Lemma get_last_append (s t : string) (k : nat) :
  String.get (String.length s + k) (s +:+ t) = String.get k t.
Proof.
  induction s as [|c s IH]; [reflexivity|].
  change (String.get (S (String.length s + k)) (String c (s +:+ t)) = String.get k t).
  simpl. exact IH.
Qed.

Lemma trailing_slash_append (s t : string) :
  t ≠ "" → Path.trailing_slash (s +:+ t) = Path.trailing_slash t.
Proof.
  intros Ht. unfold Path.trailing_slash. rewrite length_append.
  destruct t as [|c t]; [done|]. simpl String.length.
  replace (String.length s + S (String.length t))
    with (S (String.length s + String.length t)) by lia.
  rewrite get_last_append. reflexivity.
Qed.

Lemma supported_cases (ext : string) :
  ext ∈ SUPPORTED_EXTENSIONS → ext = ".ts" ∨ ext = ".tsx".
Proof. unfold SUPPORTED_EXTENSIONS. set_solver. Qed.

(** Where [processFile] cuts the path: a recognised extension on a path
    without a trailing separator is the end of the path, and the new path
    keeps everything before it. *)
Lemma new_path_stem (p : string) :
  Path.trailing_slash p = false →
  JsString.toLowerCase (Path.extname p) ∈ SUPPORTED_EXTENSIONS →
  ∃ stem, p = stem +:+ Path.extname p
          ∧ new_path p (JsString.toLowerCase (Path.extname p))
            = stem +:+ output_extension (JsString.toLowerCase (Path.extname p)).
Proof.
  intros Hts Hext.
  assert (Hne : Path.extname p ≠ "").
  { intros E. rewrite E in Hext. apply supported_cases in Hext.
    destruct Hext; discriminate. }
  destruct (extname_suffix p Hts Hne) as (sd & Hsd & He).
  exists (String.substring 0 sd p). split.
  - rewrite He. symmetry. apply substring_split. lia.
  - unfold new_path. f_equal.
    rewrite length_toLowerCase, He, length_substring by lia.
    unfold JsString.slice, JsString.clamp_index.
    destruct (Z.ltb_spec 0 0); [lia|].
    destruct (Z.ltb_spec (- Z.of_nat (String.length p - sd)) 0); [|lia].
    f_equal; lia.
Qed.

Lemma new_path_differs (p : string) :
  Path.trailing_slash p = false →
  JsString.toLowerCase (Path.extname p) ∈ SUPPORTED_EXTENSIONS →
  new_path p (JsString.toLowerCase (Path.extname p)) ≠ p.
Proof.
  intros Hts Hext. destruct (new_path_stem p Hts Hext) as (stem & Hp & Hnew).
  rewrite Hnew. clear Hnew Hts. revert Hp Hext.
  generalize (Path.extname p). intros e -> Hext E.
  apply String.app_inj in E. apply supported_cases in Hext.
  destruct Hext as [Hx | Hx]; rewrite Hx in E; vm_compute in E;
    subst e; vm_compute in Hx; discriminate.
Qed.

Lemma new_path_no_trailing_slash (p : string) :
  Path.trailing_slash p = false →
  JsString.toLowerCase (Path.extname p) ∈ SUPPORTED_EXTENSIONS →
  Path.trailing_slash (new_path p (JsString.toLowerCase (Path.extname p))) = false.
Proof.
  intros Hts Hext. destruct (new_path_stem p Hts Hext) as (stem & _ & ->).
  apply supported_cases in Hext.
  destruct Hext as [-> | ->]; rewrite trailing_slash_append; done.
Qed.

End PathFacts.

(** ** The monad and the trace *)

Section StateFacts.

Lemma log_events_nil (s : State) : log_events s [] = s.
Proof. destruct s; unfold log_events; simpl. by rewrite app_nil_r. Qed.

Lemma log_events_app (s : State) (a b : list Event) :
  log_events (log_events s a) b = log_events s (a ++ b).
Proof. unfold log_events; simpl. by rewrite app_assoc. Qed.

Lemma log_with_files (s : State) (fs : gmap string string) (a : list Event) :
  log_events (with_files s fs) a = with_files (log_events s a) fs.
Proof. reflexivity. Qed.

Lemma files_log_with (s : State) (fs : gmap string string) (a : list Event) :
  files (log_events (with_files s fs) a) = fs.
Proof. reflexivity. Qed.

Lemma with_files_same (s : State) : with_files s (files s) = s.
Proof. by destruct s. Qed.

Lemma with_files_twice (s : State) (f g : gmap string string) :
  with_files (with_files s f) g = with_files s g.
Proof. reflexivity. Qed.

Lemma bind_Ok {A B} (m : M A) (k : A → M B) (s s' : State) (a : A) :
  m s = (Ok a, s') → bind m k s = k a s'.
Proof. unfold bind. by intros ->. Qed.

Lemma bind_Throw {A B} (m : M A) (k : A → M B) (s s' : State) (msg : string) :
  m s = (Throw msg, s') → bind m k s = (Throw msg, s').
Proof. unfold bind. by intros ->. Qed.

Lemma try_catch_Ok {A} (m : M A) (h : string → M A) (s s' : State) (a : A) :
  m s = (Ok a, s') → try_catch m h s = (Ok a, s').
Proof. unfold try_catch. by intros ->. Qed.

Lemma try_catch_Throw {A} (m : M A) (h : string → M A) (s s' : State) msg :
  m s = (Throw msg, s') → try_catch m h s = h msg s'.
Proof. unfold try_catch. by intros ->. Qed.

Lemma forM_app {A} (f : A → M unit) (pre post : list A) (s s1 : State) :
  forM_ f pre s = (Ok tt, s1) →
  forM_ f (pre ++ post) s = forM_ f post s1.
Proof.
  revert s; induction pre as [|x pre IH]; intros s.
  - cbn. by intros [= ->].
  - change (forM_ f ((x :: pre) ++ post)) with (f x ;; forM_ f (pre ++ post)).
    change (forM_ f (x :: pre)) with (f x ;; forM_ f pre).
    unfold bind. destruct (f x s) as [[[]| |] s2]; try done. apply IH.
Qed.

End StateFacts.

(** Closes an equation between states whose traces differ by the
    bracketing of the appended events. *)
Ltac trace_done :=
  unfold ret; simpl; rewrite <- ?app_assoc; simpl; reflexivity.

(** ** [convertTypeScript] and [processFile] follow their runs *)

Section FileFacts.

Context `{Engine}.

Lemma convertTypeScript_run (src : string) (s : State) :
  ∃ r evs, convertTypeScript src s = (Ok r, log_events s evs) ∧ ConvRun src r evs.
Proof.
  unfold convertTypeScript, console; unfold try_catch, bind, lift, emit, ret.
  destruct (parse src) as [tree|msg] eqn:Hp.
  - destruct (transformFromAstSync tree src (JsString.includes src "tsx"))
      as [out|msg] eqn:Ht.
    + destruct (print out) as [code|msg] eqn:Hc.
      * exists (Some code), [EvTransform (JsString.includes src "tsx") src].
        split; [reflexivity | by eapply conv_returns].
      * exists None, [EvTransform (JsString.includes src "tsx") src; conversion_error msg].
        split; [by rewrite log_events_app | by eapply conv_print_throws].
    + exists None, [EvTransform (JsString.includes src "tsx") src; conversion_error msg].
      split; [by rewrite log_events_app | by eapply conv_transform_throws].
  - exists None, [conversion_error msg].
    split; [reflexivity | by apply conv_parse_throws].
Qed.

Lemma ConvRun_events (src : string) (r : option string) (evs : list Event) :
  ConvRun src r evs →
  Forall (fun ev => ev = EvTransform (JsString.includes src "tsx") src
                    ∨ ∃ msg, ev = conversion_error msg) evs.
Proof.
  destruct 1; repeat (constructor; [first [by left | by right; eexists]|]);
    constructor.
Qed.

Lemma console_run (ch : channel) (args : list arg) (s : State) :
  console ch args s = (Ok tt, log_events s [EvConsole ch args]).
Proof. reflexivity. Qed.

Lemma fs_readFile_run (p : string) (s : State) :
  fs_readFile p s
  = match read_result p s with
    | Returns data => (Ok data, log_events s [EvReadFile p])
    | Throws msg => (Throw msg, log_events s [EvReadFile p])
    end.
Proof.
  unfold fs_readFile, bind, emit, lift.
  change (read_result p (log_events s [EvReadFile p])) with (read_result p s).
  by destruct (read_result p s).
Qed.

Lemma fs_writeFile_run (p data : string) (s : State) :
  fs_writeFile p data s
  = match write_result p data s with
    | Returns fs => (Ok tt, with_files (log_events s [EvWriteFile p data]) fs)
    | Throws msg => (Throw msg, log_events s [EvWriteFile p data])
    end.
Proof.
  unfold fs_writeFile, bind, emit, lift, set_files.
  change (write_result p data (log_events s [EvWriteFile p data]))
    with (write_result p data s).
  by destruct (write_result p data s).
Qed.

Lemma fs_unlink_run (p : string) (s : State) :
  fs_unlink p s
  = match unlink_result p s with
    | Returns fs => (Ok tt, with_files (log_events s [EvUnlink p]) fs)
    | Throws msg => (Throw msg, log_events s [EvUnlink p])
    end.
Proof.
  unfold fs_unlink, bind, emit, lift, set_files.
  change (unlink_result p (log_events s [EvUnlink p])) with (unlink_result p s).
  by destruct (unlink_result p s).
Qed.

(** [processFile] returns, never throws, and does what one of the runs of
    [FileRun] says: the counters and the refusals are not touched. *)
Lemma processFile_run (p : string) (s : State) :
  ∃ b evs fs,
    processFile p s = (Ok b, log_events (with_files s fs) evs)
    ∧ FileRun p s b evs fs.
Proof.
  unfold processFile.
  set (ext := JsString.toLowerCase (Path.extname p)).
  set (np := new_path p ext).
  destruct (bool_decide_reflect (ext ∈ SUPPORTED_EXTENSIONS)) as [Hext|Hext];
    cbn [negb].
  2:{ exists false, [skip_warning p], (files s). split; [|by apply run_skipped].
      rewrite with_files_same. reflexivity. }
  destruct (read_result p s) as [src|msg] eqn:Hread.
  2:{ exists false, [EvReadFile p; file_error p msg], (files s).
      split; [|by apply run_read_throws].
      erewrite try_catch_Throw;
        [|apply bind_Throw; rewrite fs_readFile_run, Hread; reflexivity].
      erewrite bind_Ok by apply console_run.
      by rewrite with_files_same, log_events_app. }
  destruct (convertTypeScript_run src (log_events s [EvReadFile p]))
    as (r & cev & Hc & Hconv).
  rewrite log_events_app in Hc.
  assert (Hfail : falsy r →
    ∃ b evs fs,
      try_catch
        (sourceCode <- fs_readFile p ;;
         convertedCode <- convertTypeScript sourceCode ;;
         match convertedCode with
         | Some (String _ _ as code) =>
           fs_writeFile np code ;;
           fs_unlink p ;;
           console ConsoleLog
             [AStr ("Successfully converted: " +:+ Path.basename p
                    +:+ " â†’ " +:+ Path.basename np)] ;;
           ret true
         | _ => throw "Conversion failed"
         end)
        (fun message =>
           console ConsoleError
             [AStr ("Failed to process file " +:+ p +:+ ":"); AStr message] ;;
           ret false) s
      = (Ok b, log_events (with_files s fs) evs) ∧ FileRun p s b evs fs).
  { intros Hr.
    exists false, (EvReadFile p :: cev ++ [file_error p "Conversion failed"]), (files s).
    split; [|by eapply run_conversion_failed].
    erewrite try_catch_Throw; cycle 1.
    { erewrite bind_Ok by (rewrite fs_readFile_run, Hread; reflexivity).
      erewrite bind_Ok by exact Hc.
      destruct Hr as [-> | ->]; reflexivity. }
    erewrite bind_Ok by apply console_run.
    by rewrite with_files_same, log_events_app. }
  destruct r as [[|c code]|]; [apply Hfail; by right | | apply Hfail; by left].
  clear Hfail. set (code' := String c code) in *.
  destruct (write_result np code' s) as [fs1|msg] eqn:Hw.
  2:{ exists false, (EvReadFile p :: cev ++ [EvWriteFile np code'; file_error p msg]), (files s).
      split; [|by eapply run_write_throws].
      erewrite try_catch_Throw; cycle 1.
      { erewrite bind_Ok by (rewrite fs_readFile_run, Hread; reflexivity).
        erewrite bind_Ok by exact Hc.
        unfold code'; cbv iota; fold code'.
        apply bind_Throw. rewrite fs_writeFile_run.
        change (write_result np code' _) with (write_result np code' s).
        rewrite Hw. reflexivity. }
      erewrite bind_Ok by apply console_run.
      rewrite with_files_same, !log_events_app. trace_done. }
  destruct (unlink_result p (with_files s fs1)) as [fs2|msg] eqn:Hu.
  2:{ exists false,
        (EvReadFile p :: cev ++ [EvWriteFile np code'; EvUnlink p; file_error p msg]), fs1.
      split; [|by eapply run_unlink_throws].
      erewrite try_catch_Throw; cycle 1.
      { erewrite bind_Ok by (rewrite fs_readFile_run, Hread; reflexivity).
        erewrite bind_Ok by exact Hc.
        unfold code'; cbv iota; fold code'.
        erewrite bind_Ok; cycle 1.
        { rewrite fs_writeFile_run.
          change (write_result np code' _) with (write_result np code' s).
          rewrite Hw. reflexivity. }
        apply bind_Throw. rewrite fs_unlink_run.
        change (unlink_result p _) with (unlink_result p (with_files s fs1)).
        rewrite Hu. reflexivity. }
      erewrite bind_Ok by apply console_run.
      rewrite !log_with_files, !log_events_app. trace_done. }
  exists true,
    (EvReadFile p :: cev ++ [EvWriteFile np code'; EvUnlink p; success_line p np]), fs2.
  split; [|by eapply run_converted].
  erewrite try_catch_Ok; [reflexivity|].
  erewrite bind_Ok by (rewrite fs_readFile_run, Hread; reflexivity).
  erewrite bind_Ok by exact Hc.
  unfold code'; cbv iota; fold code'.
  erewrite bind_Ok; cycle 1.
  { rewrite fs_writeFile_run.
    change (write_result np code' _) with (write_result np code' s).
    rewrite Hw. reflexivity. }
  erewrite bind_Ok; cycle 1.
  { rewrite fs_unlink_run.
    change (unlink_result p _) with (unlink_result p (with_files s fs1)).
    rewrite Hu. reflexivity. }
  erewrite bind_Ok by apply console_run.
  unfold ret. rewrite !log_with_files, !log_events_app. trace_done.
Qed.

End FileFacts.

(** ** The walk *)

Section WalkFacts.

Context `{Engine}.
Variable path_join : string → string → string.

Abbreviation processEntry := (processEntry path_join).
Abbreviation processDirectory := (processDirectory path_join).

Lemma processEntry_file (cur n : string) :
  processEntry cur (EntFile n)
  = (result <- processFile (path_join cur n) ;;
     if result then incr_success else incr_failure).
Proof. reflexivity. Qed.

Lemma processEntry_dir (cur n : string) (listing : completion (list Dirent)) :
  processEntry cur (EntDir n listing)
  = if descends n then processDirectory (path_join cur n) listing else ret tt.
Proof. reflexivity. Qed.

Lemma processDirectory_unreadable (cur message : string) (s : State) :
  processDirectory cur (Throws message) s
  = (Ok tt,
     count_failure (log_events s [EvReaddir cur; directory_error cur message])).
Proof.
  unfold processDirectory, processDirectoryWith.
  erewrite try_catch_Throw by (erewrite bind_Ok by reflexivity; reflexivity).
  erewrite bind_Ok by apply console_run.
  unfold incr_failure. by rewrite log_events_app.
Qed.

Lemma processDirectory_listing (cur : string) (entries : list Dirent)
    (s s' : State) :
  forM_ (processEntry cur) entries (log_events s [EvReaddir cur]) = (Ok tt, s') →
  processDirectory cur (Returns entries) s = (Ok tt, s').
Proof.
  intros Hloop. unfold processDirectory, processDirectoryWith.
  apply try_catch_Ok. erewrite bind_Ok by reflexivity. exact Hloop.
Qed.

Lemma steps_refl (s : State) : steps s s.
Proof. split; [done|]. exists []. by rewrite app_nil_r. Qed.

Lemma steps_trans (a b c : State) : steps a b → steps b c → steps a c.
Proof.
  intros [Hf1 [e1 He1]] [Hf2 [e2 He2]]. split; [congruence|].
  exists (e1 ++ e2). by rewrite He2, He1, app_assoc.
Qed.

Lemma steps_log (s : State) (evs : list Event) : steps s (log_events s evs).
Proof. split; [done|]. by exists evs. Qed.

Lemma forM_total (cur : string) (entries : list Dirent) :
  Forall (fun e => ∀ cur s, ∃ s', processEntry cur e s = (Ok tt, s') ∧ steps s s')
         entries →
  ∀ s, ∃ s', forM_ (processEntry cur) entries s = (Ok tt, s') ∧ steps s s'.
Proof.
  induction 1 as [|e l He _ IH]; intros s.
  - exists s. split; [reflexivity | apply steps_refl].
  - destruct (He cur s) as (s1 & Hs1 & Hst1).
    destruct (IH s1) as (s2 & Hs2 & Hst2).
    exists s2. split; [|by eapply steps_trans].
    change (forM_ (processEntry cur) (e :: l))
      with (processEntry cur e ;; forM_ (processEntry cur) l).
    by erewrite bind_Ok by exact Hs1.
Qed.

(** Every entry is processed to the end: nothing escapes [processFile] or
    the handler of [processDirectory]. *)
Lemma processEntry_total (e : Dirent) :
  ∀ cur s, ∃ s', processEntry cur e s = (Ok tt, s') ∧ steps s s'.
Proof.
  induction e as [n|n|n message|n entries IH] using Dirent_tree_ind; intros cur s.
  - rewrite processEntry_file.
    destruct (processFile_run (path_join cur n) s) as (b & evs & fs & Hrun & _).
    erewrite bind_Ok by exact Hrun.
    destruct b; eexists; (split; [reflexivity|]); split; try done; by exists evs.
  - exists s. split; [reflexivity | apply steps_refl].
  - rewrite processEntry_dir. destruct (descends n).
    + rewrite processDirectory_unreadable. eexists; split; [reflexivity|].
      split; [done|]. by eexists.
    + exists s. split; [reflexivity | apply steps_refl].
  - rewrite processEntry_dir. destruct (descends n).
    + destruct (forM_total (path_join cur n) entries IH
                  (log_events s [EvReaddir (path_join cur n)])) as (s' & Hs' & Hst).
      exists s'. split; [by apply processDirectory_listing|].
      eapply steps_trans; [apply steps_log | exact Hst].
    + exists s. split; [reflexivity | apply steps_refl].
Qed.

Lemma entries_total (cur : string) (entries : list Dirent) (s : State) :
  ∃ s', forM_ (processEntry cur) entries s = (Ok tt, s') ∧ steps s s'.
Proof.
  apply forM_total, Forall_forall. intros e _. apply processEntry_total.
Qed.

(** A directory that is entered: [readdir] on it is the first new event. *)
Lemma processDirectory_total (cur : string) (listing : completion (list Dirent))
    (s : State) :
  ∃ s' (evs : list Event), processDirectory cur listing s = (Ok tt, s')
            ∧ fails s' = fails s
            ∧ trace s' = trace s ++ EvReaddir cur :: evs.
Proof.
  destruct listing as [entries|message].
  - destruct (entries_total cur entries (log_events s [EvReaddir cur]))
      as (s' & Hs' & Hf & evs & Hevs).
    exists s', evs. split; [by apply processDirectory_listing|].
    split; [done|]. rewrite Hevs. simpl. by rewrite <- app_assoc.
  - rewrite processDirectory_unreadable. eexists _, _.
    split; [reflexivity|]. split; reflexivity.
Qed.

Lemma convertDirectory_total (dirPath : string) (listing : completion (list Dirent))
    (s : State) :
  ∃ stats s', convertDirectory path_join dirPath listing s = (Ok stats, s').
Proof.
  unfold convertDirectory.
  erewrite bind_Ok by reflexivity.
  destruct (processDirectory_total dirPath listing
              (mkState (files s) (fails s) (trace s) 0 0)) as (s' & evs & Hs' & _).
  erewrite bind_Ok by exact Hs'. by eexists _, _.
Qed.

End WalkFacts.

(** ** Searching a string *)

Section SearchFacts.

Lemma prefix_spec (a b : string) :
  String.prefix a b = true ↔ ∃ rest, b = a +:+ rest.
Proof.
  revert b; induction a as [|c a IH]; intros b.
  - split; [intros _; by exists b | by destruct b].
  - destruct b as [|d b]; simpl.
    + split; [done | intros [rest Hrest]; discriminate].
    + destruct (ascii_dec c d) as [->|Hne].
      * rewrite IH. split; intros [rest Hrest]; exists rest.
        -- by rewrite Hrest.
        -- by injection Hrest.
      * split; [done | intros [rest Hrest]; injection Hrest; congruence].
Qed.

Lemma includes_unfold (s needle : string) :
  JsString.includes s needle
  = String.prefix needle s
    || match s with
       | EmptyString => false
       | String _ s' => JsString.includes s' needle
       end.
Proof. by destruct s. Qed.

Lemma includes_spec (s needle : string) :
  JsString.includes s needle = true ↔ ∃ pre post, s = pre +:+ needle +:+ post.
Proof.
  split.
  - induction s as [|c s IH]; rewrite includes_unfold, orb_true_iff, prefix_spec.
    + intros [[post Hpost]|?]; [|done]. by exists "", post.
    + intros [[post Hpost]|Hin]; [by exists "", post|].
      destruct (IH Hin) as (pre & post & ->). by exists (String c pre), post.
  - intros (pre & post & ->). induction pre as [|c pre IH].
    + rewrite includes_unfold, orb_true_iff. left.
      apply prefix_spec. by exists post.
    + rewrite includes_unfold, orb_true_iff. right. exact IH.
Qed.

End SearchFacts.

(** ** The file converter *)

Section ConverterFacts.

Context `{Engine}.

Lemma events_of_run {A} (m : M A) (s s' : State) (r : outcome A)
    (evs : list Event) :
  m s = (r, s') → trace s' = trace s ++ evs → events_of m s = evs.
Proof.
  intros Hm Ht. unfold events_of. rewrite Hm. simpl. rewrite Ht.
  by rewrite drop_app_length.
Qed.

Lemma processFile_events (p : string) (s : State) :
  ∃ b fs,
    processFile p s
    = (Ok b, log_events (with_files s fs) (events_of (processFile p) s))
    ∧ FileRun p s b (events_of (processFile p) s) fs.
Proof.
  destruct (processFile_run p s) as (b & evs & fs & Hrun & HR).
  rewrite (events_of_run _ _ _ _ evs Hrun) by reflexivity.
  by exists b, fs.
Qed.

Lemma ConvRun_fun (src : string) (r r' : option string) (evs evs' : list Event) :
  ConvRun src r evs → ConvRun src r' evs' → r = r' ∧ evs = evs'.
Proof.
  destruct 1; destruct 1; split; congruence.
Qed.

Lemma ConvRun_no_mutation (src : string) (r : option string) (evs : list Event) :
  ConvRun src r evs → Forall (fun ev => is_mutation ev = false) evs.
Proof. destruct 1; repeat constructor. Qed.

Lemma filter_no_mutation (evs : list Event) :
  Forall (fun ev => is_mutation ev = false) evs → List.filter is_mutation evs = [].
Proof.
  induction 1 as [|ev evs Hev _ IH]; [reflexivity|].
  simpl. by rewrite Hev.
Qed.

Lemma ConvRun_filter (p src : string) (r : option string)
    (cev tail : list Event) :
  ConvRun src r cev →
  List.filter is_mutation (EvReadFile p :: cev ++ tail)
  = List.filter is_mutation tail.
Proof.
  intros Hc. simpl. rewrite List.filter_app.
  by rewrite (filter_no_mutation cev) by by eapply ConvRun_no_mutation.
Qed.

(** C3. In every call of [processFile] the calls that change the file
    system are, in order: none; or the write of the converted file alone,
    which threw; or that write, which returned, and then the unlink of the
    original.  And when the extension is not recognised, the read throws
    or the conversion gives nothing, the call returns [false], makes no
    such call and leaves every file as it was. *)
Theorem write_precedes_unlink (p : string) (s : State) :
  let ext := JsString.toLowerCase (Path.extname p) in
  let evs := events_of (processFile p) s in
  let s' := snd (processFile p s) in
  (List.filter is_mutation evs = []
   ∨ (∃ code msg,
         List.filter is_mutation evs = [EvWriteFile (new_path p ext) code]
         ∧ write_result (new_path p ext) code s = Throws msg)
   ∨ (∃ code fs1,
         List.filter is_mutation evs
         = [EvWriteFile (new_path p ext) code; EvUnlink p]
         ∧ write_result (new_path p ext) code s = Returns fs1))
  ∧ (ext ∉ SUPPORTED_EXTENSIONS
     ∨ (∃ msg, read_result p s = Throws msg)
     ∨ (∃ src r cev, read_result p s = Returns src ∧ ConvRun src r cev ∧ falsy r) →
     fst (processFile p s) = Ok false
     ∧ List.filter is_mutation evs = []
     ∧ files s' = files s).
Proof.
  intros ext evs s'. subst evs s'.
  destruct (processFile_events p s) as (b & fs & Hrun & HR).
  rewrite Hrun. simpl fst; simpl snd. fold ext in HR |- *.
  set (evs := events_of (processFile p) s) in *. clearbody evs. clear Hrun.
  split.
  - destruct HR as [ | | ? ? ? ? ? Hc | ? ? ? ? ? ? Hc | ? ? ? ? ? ? ? Hc
                     | ? ? ? ? ? ? ? Hc ].
    + by left.
    + by left.
    + left. rewrite (ConvRun_filter _ _ _ _ _ Hc). reflexivity.
    + right; left. rewrite (ConvRun_filter _ _ _ _ _ Hc). simpl. eauto.
    + right; right. rewrite (ConvRun_filter _ _ _ _ _ Hc). simpl. eauto.
    + right; right. rewrite (ConvRun_filter _ _ _ _ _ Hc). simpl. eauto.
  - intros Hpath.
    assert (Hstop : ∀ src code cev,
               read_result p s = Returns src → ConvRun src (Some code) cev →
               code ≠ "" → ext ∈ SUPPORTED_EXTENSIONS → False).
    { intros src code cev Hr Hc Hne Hext.
      destruct Hpath as [Hno | [[msg Hmsg] | (src' & r' & cev' & Hr' & Hc' & Hf)]].
      - done.
      - congruence.
      - rewrite Hr in Hr'. injection Hr' as <-.
        destruct (ConvRun_fun _ _ _ _ _ Hc Hc') as [<- _].
        destruct Hf; congruence. }
    destruct HR as [ | | ? ? ? ? ? Hc | ? ? ? ? ? ? Hc | ? ? ? ? ? ? ? Hc
                     | ? ? ? ? ? ? ? Hc ];
      try (exfalso; by eapply Hstop).
    + done.
    + done.
    + split; [done|]. split; [|done].
      rewrite (ConvRun_filter _ _ _ _ _ Hc). reflexivity.
Qed.

Lemma read_returns (p src : string) (s : State) :
  read_result p s = Returns src →
  Path.trailing_slash p = false ∧ files s !! p = Some src.
Proof.
  unfold read_result. destruct (Path.trailing_slash p); [done|].
  destruct (fails s OpRead p); [done|].
  destruct (files s !! p); [|done]. by intros [= ->].
Qed.

(** C4. A file with a recognised extension that is read, converted to a
    non-empty text, written and unlinked: [processFile] returns [true], the
    new path is the old one with [.ts] replaced by [.js] or [.tsx] by
    [.jsx] (whatever the case of the letters of the old extension), the
    converted text is at the new path, nothing is at the old path, and no
    other path changed. *)
Theorem converted_file_replaces_original (p : string) (s : State)
    (src code : string) (cev : list Event) :
  let ext := JsString.toLowerCase (Path.extname p) in
  let np := new_path p ext in
  let s' := snd (processFile p s) in
  ext ∈ SUPPORTED_EXTENSIONS →
  read_result p s = Returns src →
  ConvRun src (Some code) cev → code ≠ "" →
  fails s OpWrite np = None →
  fails s OpUnlink p = None →
  fst (processFile p s) = Ok true
  ∧ (∃ stem e,
        p = stem +:+ e
        ∧ ((JsString.toLowerCase e = ".ts" ∧ np = stem +:+ ".js")
           ∨ (JsString.toLowerCase e = ".tsx" ∧ np = stem +:+ ".jsx")))
  ∧ files s' !! np = Some code
  ∧ files s' !! p = None
  ∧ (∀ q, q ≠ p → q ≠ np → files s' !! q = files s !! q).
Proof.
  intros ext np s' Hext Hread Hconv Hne Hw Hu. subst s'.
  destruct (read_returns _ _ _ Hread) as [Hts Hp].
  pose proof (new_path_differs p Hts Hext) as Hdiff.
  pose proof (new_path_no_trailing_slash p Hts Hext) as Hnts.
  fold ext in Hdiff, Hnts. fold np in Hdiff, Hnts.
  assert (Hwrite : write_result np code s = Returns (<[np := code]> (files s))).
  { unfold write_result. by rewrite Hnts, Hw. }
  assert (Hunlink : unlink_result p (with_files s (<[np := code]> (files s)))
                    = Returns (delete p (<[np := code]> (files s)))).
  { unfold unlink_result. rewrite Hts. simpl fails. rewrite Hu. simpl files.
    by rewrite lookup_insert_ne, Hp by done. }
  destruct (processFile_events p s) as (b & fs & Hrun & HR).
  rewrite Hrun. simpl fst; simpl snd. fold ext in HR. fold np in HR.
  clear Hrun.
  assert (b = true ∧ fs = delete p (<[np := code]> (files s))) as [-> ->].
  { destruct HR as [ | | ? ? ? Hx Hr Hc Hf | ? ? ? ? Hx Hr Hc Hn Hw'
                     | ? ? ? ? ? Hx Hr Hc Hn Hw' Hu' | ? ? ? ? ? Hx Hr Hc Hn Hw' Hu' ];
      try done; try congruence;
      rewrite Hread in Hr; injection Hr as <-;
      destruct (ConvRun_fun _ _ _ _ _ Hconv Hc) as [Hcode _].
    - destruct Hf; congruence.
    - injection Hcode as <-. fold ext in Hw'; fold np in Hw'.
      rewrite Hwrite in Hw'. discriminate.
    - injection Hcode as <-. fold ext in Hw'; fold np in Hw'.
      rewrite Hwrite in Hw'. injection Hw' as <-.
      rewrite Hunlink in Hu'. discriminate.
    - injection Hcode as <-. fold ext in Hw'; fold np in Hw'.
      rewrite Hwrite in Hw'. injection Hw' as <-.
      rewrite Hunlink in Hu'. by injection Hu' as <-. }
  split; [done|]. split.
  - destruct (new_path_stem p Hts Hext) as (stem & Hstem & Hnew).
    exists stem, (Path.extname p). split; [done|].
    fold ext in Hnew. fold np in Hnew. rewrite Hnew.
    fold ext. destruct (supported_cases _ Hext) as [-> | ->]; [left | right]; done.
  - rewrite files_log_with. split; [|split].
    + rewrite lookup_delete_ne by done. apply lookup_insert_eq.
    + apply lookup_delete_eq.
    + intros q Hq1 Hq2. by rewrite lookup_delete_ne, lookup_insert_ne.
Qed.

(** C9. When [processFile] returns [true] and a file was already at the new
    path: the source was read, converted, and the new path now holds the
    converted text; the events of the call are the read, the transform, the
    write, the unlink and the success line, with no look at the new path
    before the write and no warning. *)
Theorem existing_output_overwritten (p : string) (s : State) (old : string) :
  let ext := JsString.toLowerCase (Path.extname p) in
  let np := new_path p ext in
  let s' := snd (processFile p s) in
  fst (processFile p s) = Ok true →
  files s !! np = Some old →
  ∃ src code,
    read_result p s = Returns src
    ∧ ConvRun src (Some code) [EvTransform (JsString.includes src "tsx") src]
    ∧ files s' !! np = Some code
    ∧ events_of (processFile p) s
      = [EvReadFile p; EvTransform (JsString.includes src "tsx") src;
         EvWriteFile np code; EvUnlink p; success_line p np].
Proof.
  intros ext np s' Htrue Hold. subst s'.
  destruct (processFile_events p s) as (b & fs & Hrun & HR).
  rewrite Hrun in Htrue |- *. simpl in Htrue. injection Htrue as ->.
  simpl snd. fold ext in HR. fold np in HR.
  inversion HR as [ | | | | | src code cev fs1 fs2 Hx Hr Hc Hn Hw Hu Hb Hev Hfs ].
  exists src, code.
  destruct (read_returns _ _ _ Hr) as [Hts Hp].
  pose proof (new_path_differs p Hts Hx) as Hdiff. fold ext in Hdiff. fold np in Hdiff.
  assert (cev = [EvTransform (JsString.includes src "tsx") src]) as ->
    by by inversion Hc.
  split; [done|]. split; [done|]. split; [|done].
  rewrite files_log_with. revert Hw Hu. unfold write_result, unlink_result.
  repeat case_match; try done. intros [= <-] [= <-].
  rewrite lookup_delete_ne by done. apply lookup_insert_eq.
Qed.

(** The transform events of a call of [processFile] carry the text read
    from the file and the result of the search for [tsx] in it. *)
Lemma transform_event_of_file (p : string) (s : State)
    (isTSX : bool) (src : string) :
  EvTransform isTSX src ∈ events_of (processFile p) s →
  (isTSX = true ↔ ∃ pre post, src = pre +:+ "tsx" +:+ post)
  ∧ read_result p s = Returns src.
Proof.
  destruct (processFile_events p s) as (b & fs & _ & HR).
  set (evs := events_of (processFile p) s) in *. clearbody evs.
  intros Hin.
  assert (Hcev : ∀ src' r cev, ConvRun src' r cev → EvTransform isTSX src ∈ cev →
                               src' = src ∧ isTSX = JsString.includes src "tsx").
  { intros src' r cev Hc Hm. apply ConvRun_events in Hc.
    rewrite Forall_forall in Hc. destruct (Hc _ Hm) as [E | [msg E]]; [|done].
    by injection E as -> <-. }
  assert (Hgoal : ∀ src' r cev (tail : list Event),
             read_result p s = Returns src' → ConvRun src' r cev →
             EvTransform isTSX src ∈ EvReadFile p :: cev ++ tail →
             Forall (fun ev => ∀ b t, ev ≠ EvTransform b t) tail →
             (isTSX = true ↔ ∃ pre post, src = pre +:+ "tsx" +:+ post)
             ∧ read_result p s = Returns src).
  { intros src' r cev tail Hr Hc Hm Htail.
    apply elem_of_cons in Hm as [?|Hm]; [done|].
    apply elem_of_app in Hm as [Hm|Hm].
    - destruct (Hcev _ _ _ Hc Hm) as [-> ->]. split; [apply includes_spec | done].
    - rewrite Forall_forall in Htail. by destruct (Htail _ Hm isTSX src). }
  destruct HR as [ | | ? ? ? ? Hr Hc | ? ? ? ? ? Hr Hc | ? ? ? ? ? ? Hr Hc
                   | ? ? ? ? ? ? Hr Hc ].
  - apply list_elem_of_singleton in Hin. discriminate.
  - apply elem_of_cons in Hin as [?|Hin]; [done|].
    apply list_elem_of_singleton in Hin. discriminate.
  - eapply Hgoal; [done..|]. by repeat constructor.
  - eapply Hgoal; [done..|]. by repeat constructor.
  - eapply Hgoal; [done..|]. by repeat constructor.
  - eapply Hgoal; [done..|]. by repeat constructor.
Qed.

End ConverterFacts.

(** ** The directory walker *)

Section WalkerFacts.

Context `{Engine}.
Variable path_join : string → string → string.

Abbreviation processEntry := (processEntry path_join).
Abbreviation processDirectory := (processDirectory path_join).

Lemma descends_spec (name : string) :
  descends name = true ↔ (name ∉ IGNORED_DIRS) ∧ ¬ hidden name.
Proof.
  unfold descends, hidden, JsString.startsWith. split.
  - intros [Hi Hp]%andb_true_iff.
    apply negb_true_iff in Hi, Hp. apply bool_decide_eq_false in Hi.
    split; [done|]. intros Hh%prefix_spec. congruence.
  - intros [Hi Hh]. apply andb_true_iff. split; apply negb_true_iff.
    + by apply bool_decide_eq_false.
    + destruct (String.prefix "." name) eqn:E; [|done].
      by apply prefix_spec in E.
Qed.

(** C1, as the code has it. A file whose extension, in lower case, is
    neither [.ts] nor [.tsx] is skipped with a warning and no file is
    touched; [processFile] returns [false] for it, so the walker leaves
    [successCount] as it is and adds one to [failureCount]. *)
Theorem unsupported_file_counts_as_failure (cur n : string) (s : State) :
  let fullPath := path_join cur n in
  JsString.toLowerCase (Path.extname fullPath) ∉ SUPPORTED_EXTENSIONS →
  processFile fullPath s = (Ok false, log_events s [skip_warning fullPath])
  ∧ ∃ s', processEntry cur (EntFile n) s = (Ok tt, s')
          ∧ files s' = files s
          ∧ trace s' = trace s ++ [skip_warning fullPath]
          ∧ successCount s' = successCount s
          ∧ failureCount s' = S (failureCount s).
Proof.
  intros fullPath Hext.
  assert (Hrun : processFile fullPath s
                 = (Ok false, log_events s [skip_warning fullPath])).
  { unfold processFile. rewrite bool_decide_eq_false_2 by done. reflexivity. }
  split; [done|].
  rewrite processEntry_file. fold fullPath. erewrite bind_Ok by exact Hrun.
  eexists. split; [reflexivity|]. done.
Qed.

(** For a directory entry, [readdir] on its path is the next event exactly
    when its name is not in [IGNORED_DIRS] and does not begin with a dot;
    otherwise the entry changes nothing. *)
Lemma readdir_iff_not_ignored (cur n : string)
    (listing : completion (list Dirent)) (s : State) :
  ((∃ s' (evs : list Event),
       processEntry cur (EntDir n listing) s = (Ok tt, s')
       ∧ trace s' = trace s ++ EvReaddir (path_join cur n) :: evs)
   ↔ (n ∉ IGNORED_DIRS) ∧ ¬ hidden n)
  ∧ (n ∈ IGNORED_DIRS ∨ hidden n →
     processEntry cur (EntDir n listing) s = (Ok tt, s)).
Proof.
  rewrite processEntry_dir, <- descends_spec.
  destruct (descends n) eqn:Hd.
  - split.
    + split; [done|]. intros _.
      destruct (processDirectory_total path_join (path_join cur n) listing s)
        as (s' & evs & Hs' & _ & Ht).
      by exists s', evs.
    + intros Hskip. apply descends_spec in Hd as [Hi Hh]. by destruct Hskip.
  - split; [|done]. split; [|done].
    intros (s' & evs & [= <-] & Ht).
    apply (f_equal length) in Ht. rewrite length_app in Ht. simpl in Ht. lia.
Qed.

(** C7. A directory that is entered and cannot be enumerated, whatever the
    error: the error is logged, [failureCount] grows by one and nothing else
    changes; the loop over the entries of its parent goes on with the
    entries after it; and a walk whose root cannot be enumerated reports no
    success and one failure. *)
Theorem unreadable_directory_counts_once (cur n message : string)
    (pre post : list Dirent) (s : State) :
  n ∉ IGNORED_DIRS → ¬ hidden n →
  let fullPath := path_join cur n in
  (∃ s1,
    forM_ (processEntry cur) pre s = (Ok tt, s1)
    ∧ let s2 := count_failure
                  (log_events s1 [EvReaddir fullPath;
                                  directory_error fullPath message]) in
      processEntry cur (EntDir n (Throws message)) s1 = (Ok tt, s2)
      ∧ failureCount s2 = S (failureCount s1)
      ∧ successCount s2 = successCount s1
      ∧ files s2 = files s1
      ∧ forM_ (processEntry cur) (pre ++ EntDir n (Throws message) :: post) s
        = forM_ (processEntry cur) post s2)
  ∧ fst (convertDirectory path_join fullPath (Throws message) s) = Ok (0, 1).
Proof.
  intros Hi Hh fullPath.
  assert (Hd : descends n = true) by by apply descends_spec.
  split; [|reflexivity].
  destruct (entries_total path_join cur pre s) as (s1 & Hs1 & _).
  exists s1. split; [done|]. intros s2.
  assert (Hdir : processEntry cur (EntDir n (Throws message)) s1 = (Ok tt, s2)).
  { rewrite processEntry_dir, Hd. apply processDirectory_unreadable. }
  split; [done|]. do 3 (split; [done|]).
  rewrite (forM_app _ _ _ _ _ Hs1).
  change (forM_ (processEntry cur) (EntDir n (Throws message) :: post))
    with (processEntry cur (EntDir n (Throws message)) ;; forM_ (processEntry cur) post).
  by erewrite bind_Ok by exact Hdir.
Qed.

(** C10. A file entry of any name, hidden or named like an ignored
    directory: [processFile] is called on its joined path, and then exactly
    one counter grows by one, [successCount] when the call returned [true]
    and [failureCount] when it returned [false]; the counting changes
    nothing else. *)
Theorem file_entries_always_converted (cur n : string) (s : State) :
  let fullPath := path_join cur n in
  ∃ b s1 s',
    processFile fullPath s = (Ok b, s1)
    ∧ trace s1 = trace s ++ events_of (processFile fullPath) s
    ∧ processEntry cur (EntFile n) s = (Ok tt, s')
    ∧ files s' = files s1 ∧ trace s' = trace s1 ∧ fails s' = fails s1
    ∧ successCount s' = successCount s + (if b then 1 else 0)
    ∧ failureCount s' = failureCount s + (if b then 0 else 1).
Proof.
  intros fullPath.
  destruct (processFile_events fullPath s) as (b & fs & Hrun & _).
  destruct b; eexists _, _, _;
    (split; [exact Hrun|]); (split; [reflexivity|]);
    (split; [rewrite processEntry_file; fold fullPath;
             erewrite bind_Ok by exact Hrun; reflexivity|]);
    simpl; repeat split; lia.
Qed.

End WalkerFacts.

(** ** The command interface *)

Section MainFacts.

Context `{Engine}.
Variable path_join : string → string → string.

Lemma main_prelude (opts : Options) (s : State)
    (body : M unit) (handler : string → M unit) :
  ((if verbose opts
    then console ConsoleLog
           [AStr "Runtime parameters:"; AParams (dir opts) (file opts) (dryRun opts)]
    else ret tt) ;;
   (if dryRun opts
    then console ConsoleLog
           [AStr "Dry run mode: Only showing what files would be converted"]
    else ret tt) ;;
   try_catch body handler) s
  = try_catch body handler
      (log_events s (verbose_events opts
                     ++ if dryRun opts then [dry_run_banner] else [])).
Proof.
  unfold verbose_events, params_line.
  destruct (verbose opts), (dryRun opts); unfold bind, console, emit, ret;
    rewrite ?log_events_app, ?log_events_nil; reflexivity.
Qed.

(** C5. With [--dry-run] the run is three console lines at most: the
    parameters when [--verbose] is set, the banner, and the line naming the
    file or the directory it was given.  No file-system call, no
    transform; the files and the counters are as before; the status is
    zero. *)
Theorem dry_run_touches_nothing (opts : Options)
    (listing : completion (list Dirent)) (s : State) :
  dryRun opts = true →
  let target :=
    match truthy (file opts) with
    | Some f => "Would convert file: " +:+ f
    | None => "Would scan directory: " +:+ dir opts
    end in
  main path_join opts listing s
  = (Ok tt,
     log_events s
       (verbose_events opts
        ++ [dry_run_banner; EvConsole ConsoleLog [AStr target]]))
  ∧ fst (exit_status path_join opts listing s) = 0%Z.
Proof.
  intros Hdry target.
  assert (Hmain : main path_join opts listing s
                  = (Ok tt,
                     log_events s
                       (verbose_events opts
                        ++ [dry_run_banner; EvConsole ConsoleLog [AStr target]]))).
  { unfold main. rewrite main_prelude, Hdry. subst target.
    destruct (truthy (file opts)) as [f|];
      (erewrite try_catch_Ok by apply console_run);
      rewrite log_events_app, <- app_assoc; reflexivity. }
  split; [done|]. unfold exit_status. by rewrite Hmain.
Qed.

Lemma main_total (opts : Options) (listing : completion (list Dirent)) (s : State) :
  ∃ s', main path_join opts listing s = (Ok tt, s').
Proof.
  unfold main. rewrite main_prelude.
  set (s0 := log_events s _). clearbody s0.
  destruct (truthy (file opts)) as [f|], (dryRun opts).
  - eexists. by erewrite try_catch_Ok by apply console_run.
  - destruct (processFile_run f s0) as (b & evs & fs & Hrun & _).
    eexists. erewrite try_catch_Ok; [reflexivity|].
    by erewrite bind_Ok by exact Hrun.
  - eexists. by erewrite try_catch_Ok by apply console_run.
  - destruct (convertDirectory_total path_join (dir opts) listing s0)
      as (stats & s1 & Hs1).
    eexists. erewrite try_catch_Ok; [reflexivity|].
    erewrite bind_Ok by exact Hs1. apply console_run.
Qed.

(** C2, as the code has it. A run of [main], on the options that
    [program.parse] returned, completes and the status of the process is
    zero.  In single-file mode, when the read of the target throws,
    [processFile] catches the error and logs it, no file changes, and the
    status is zero.  In directory mode the status is zero whatever the two
    numbers of the walk are, after the line that reports them. *)
Theorem completed_run_exits_zero (opts : Options)
    (listing : completion (list Dirent)) (s : State) :
  (∃ s', main path_join opts listing s = (Ok tt, s')
         ∧ exit_status path_join opts listing s = (0%Z, s'))
  ∧ (∀ f msg,
        truthy (file opts) = Some f → dryRun opts = false →
        JsString.toLowerCase (Path.extname f) ∈ SUPPORTED_EXTENSIONS →
        read_result f s = Throws msg →
        exit_status path_join opts listing s
        = (0%Z, log_events s (verbose_events opts
                              ++ [EvReadFile f; file_error f msg])))
  ∧ (truthy (file opts) = None → dryRun opts = false →
     ∃ success failure s1,
       convertDirectory path_join (dir opts) listing
         (log_events s (verbose_events opts))
       = (Ok (success, failure), s1)
       ∧ exit_status path_join opts listing s
         = (0%Z, log_events s1 [summary_line success failure])).
Proof.
  split; [|split].
  - destruct (main_total opts listing s) as (s' & Hs').
    exists s'. split; [exact Hs'|]. unfold exit_status. by rewrite Hs'.
  - intros f msg Hf Hdry Hext Hread.
    unfold exit_status, main. rewrite main_prelude, Hf, Hdry, app_nil_r.
    set (s0 := log_events s (verbose_events opts)).
    destruct (processFile_run f s0) as (b & evs & fs & Hrun & HR).
    erewrite try_catch_Ok; cycle 1.
    { erewrite bind_Ok by exact Hrun. reflexivity. }
    destruct HR as [Hx| ? _ Hr | ? ? ? _ Hr | ? ? ? ? _ Hr | ? ? ? ? ? _ Hr
                    | ? ? ? ? ? _ Hr ];
      try done;
      change (read_result f s0) with (read_result f s) in Hr;
      rewrite Hread in Hr; try discriminate.
    injection Hr as <-. subst s0.
    by rewrite with_files_same, log_events_app.
  - intros Hf Hdry.
    set (s0 := log_events s (verbose_events opts)).
    destruct (convertDirectory_total path_join (dir opts) listing s0)
      as ([a b] & s1 & Hrun).
    exists a, b, s1. split; [exact Hrun|].
    unfold exit_status, main. rewrite main_prelude, Hdry, app_nil_r, Hf.
    fold s0. erewrite try_catch_Ok; [reflexivity|].
    erewrite bind_Ok by exact Hrun. reflexivity.
Qed.

End MainFacts.

(** ** The sample installation *)

(** C1 fails on the scenario of the project directory: [a.ts] and [b.tsx]
    are converted and [c.json], skipped, is counted as a failure; the run
    reports two successes and one failure, and leaves [c.json] alone. *)
Lemma scenario_reports_one_failure :
  let run := convertDirectory (H := Sample.engine) Sample.join "proj"
               Sample.project_tree (Sample.disk Sample.project) in
  fst run = Ok (2, 1)
  ∧ files (snd run) !! "proj/a.js" = Some "let a: number = 1;"
  ∧ files (snd run) !! "proj/a.ts" = None
  ∧ files (snd run) !! "proj/b.tsx" = None
  ∧ files (snd run) !! "proj/c.json" = Some "{}".
Proof. vm_compute. repeat split; reflexivity. Qed.

Lemma unsupported_file_witness :
  let s := Sample.disk Sample.project in
  processFile (H := Sample.engine) "proj/c.json" s
  = (Ok false, log_events s [skip_warning "proj/c.json"])
  ∧ ∃ s', processEntry (H := Sample.engine) Sample.join "proj" (EntFile "c.json") s
          = (Ok tt, s')
          ∧ files s' = files s
          ∧ trace s' = trace s ++ [skip_warning "proj/c.json"]
          ∧ successCount s' = successCount s
          ∧ failureCount s' = S (failureCount s).
Proof.
  apply (unsupported_file_counts_as_failure (H := Sample.engine) Sample.join
           "proj" "c.json" (Sample.disk Sample.project)).
  apply (bool_decide_eq_false_1
           (JsString.toLowerCase (Path.extname "proj/c.json") ∈ SUPPORTED_EXTENSIONS)).
  vm_compute. reflexivity.
Defined.

(** C2 fails on a target that is not there: the read throws and the status
    is zero. *)
Lemma unreadable_target_exits_zero :
  let s := Sample.disk Sample.project in
  read_result "proj/missing.ts" s = Throws "ENOENT: no such file or directory"
  ∧ exit_status (H := Sample.engine) Sample.join
      (Sample.single "proj/missing.ts") Sample.project_tree s
    = (0%Z, log_events s [EvReadFile "proj/missing.ts";
                          file_error "proj/missing.ts"
                            "ENOENT: no such file or directory"]).
Proof. vm_compute. split; reflexivity. Qed.

Lemma converted_file_witness :
  let p := "proj/a.ts" in
  let s := Sample.disk Sample.project in
  let s' := snd (processFile (H := Sample.engine) p s) in
  fst (processFile (H := Sample.engine) p s) = Ok true
  ∧ (∃ stem e,
        p = stem +:+ e
        ∧ ((JsString.toLowerCase e = ".ts" ∧ "proj/a.js" = stem +:+ ".js")
           ∨ (JsString.toLowerCase e = ".tsx" ∧ "proj/a.js" = stem +:+ ".jsx")))
  ∧ files s' !! "proj/a.js" = Some "let a: number = 1;"
  ∧ files s' !! p = None
  ∧ (∀ q, q ≠ p → q ≠ "proj/a.js" → files s' !! q = files s !! q).
Proof.
  apply (converted_file_replaces_original (H := Sample.engine)
           "proj/a.ts" (Sample.disk Sample.project)
           "let a: number = 1;" "let a: number = 1;"
           [EvTransform false "let a: number = 1;"]).
  - apply (bool_decide_unpack (".ts" ∈ SUPPORTED_EXTENSIONS)). vm_compute. exact I.
  - vm_compute. reflexivity.
  - apply (conv_returns (H := Sample.engine) "let a: number = 1;"
             "let a: number = 1;" "let a: number = 1;"); reflexivity.
  - discriminate.
  - reflexivity.
  - reflexivity.
Defined.

Lemma dry_run_witness :
  let s := Sample.disk Sample.project in
  main (H := Sample.engine) Sample.join (Sample.preview "proj/a.ts")
    Sample.project_tree s
  = (Ok tt,
     log_events s
       [params_line (Sample.preview "proj/a.ts"); dry_run_banner;
        EvConsole ConsoleLog [AStr "Would convert file: proj/a.ts"]])
  ∧ fst (exit_status (H := Sample.engine) Sample.join
           (Sample.preview "proj/a.ts") Sample.project_tree s) = 0%Z.
Proof.
  apply (dry_run_touches_nothing (H := Sample.engine) Sample.join
           (Sample.preview "proj/a.ts") Sample.project_tree
           (Sample.disk Sample.project)).
  reflexivity.
Defined.

Lemma unreadable_directory_witness :
  let s := Sample.disk Sample.project in
  let walk := forM_ (processEntry (H := Sample.engine) Sample.join "proj") in
  let locked := EntDir "locked" (Throws "EACCES: permission denied") in
  (∃ s1,
    walk [EntFile "a.ts"] s = (Ok tt, s1)
    ∧ let s2 := count_failure
                  (log_events s1 [EvReaddir "proj/locked";
                                  directory_error "proj/locked"
                                    "EACCES: permission denied"]) in
      processEntry (H := Sample.engine) Sample.join "proj" locked s1 = (Ok tt, s2)
      ∧ failureCount s2 = S (failureCount s1)
      ∧ successCount s2 = successCount s1
      ∧ files s2 = files s1
      ∧ walk ([EntFile "a.ts"] ++ locked :: [EntFile "b.tsx"]) s
        = walk [EntFile "b.tsx"] s2)
  ∧ fst (convertDirectory (H := Sample.engine) Sample.join "proj/locked"
           (Throws "EACCES: permission denied") s)
    = Ok (0, 1).
Proof.
  apply (unreadable_directory_counts_once (H := Sample.engine) Sample.join
           "proj" "locked" "EACCES: permission denied"
           [EntFile "a.ts"] [EntFile "b.tsx"] (Sample.disk Sample.project)).
  - apply (bool_decide_eq_false_1 ("locked" ∈ IGNORED_DIRS)).
    vm_compute. reflexivity.
  - intros [rest Hrest]. discriminate Hrest.
Defined.

Lemma existing_output_witness :
  let p := "proj/a.ts" in
  let s := Sample.disk Sample.stale in
  ∃ src code,
    read_result p s = Returns src
    ∧ ConvRun (H := Sample.engine) src (Some code)
        [EvTransform (JsString.includes src "tsx") src]
    ∧ files (snd (processFile (H := Sample.engine) p s)) !! "proj/a.js" = Some code
    ∧ events_of (processFile (H := Sample.engine) p) s
      = [EvReadFile p; EvTransform (JsString.includes src "tsx") src;
         EvWriteFile "proj/a.js" code; EvUnlink p; success_line p "proj/a.js"].
Proof.
  apply (existing_output_overwritten (H := Sample.engine)
           "proj/a.ts" (Sample.disk Sample.stale) "var a = 0;").
  - vm_compute. reflexivity.
  - vm_compute. reflexivity.
Defined.

(** * Further properties of the code *)

(** ** One file *)

Section ConverterMore.

Context `{Engine}.

Lemma write_returns (p data : string) (s : State) (fs : gmap string string) :
  write_result p data s = Returns fs → fs = <[p := data]> (files s).
Proof.
  unfold write_result. repeat case_match; try done. by intros [= <-].
Qed.

Lemma unlink_returns (p : string) (s : State) (fs : gmap string string) :
  unlink_result p s = Returns fs → fs = delete p (files s).
Proof.
  unfold unlink_result. repeat case_match; try done. by intros [= <-].
Qed.

(** X1. Whatever happens in a call of [processFile], the only paths whose
    content can differ afterwards are the path given and the new path; the
    refusals and the two counters are as before; and when the extension is
    not recognised no path differs at all. *)
Theorem processFile_frame (p : string) (s : State) :
  let ext := JsString.toLowerCase (Path.extname p) in
  let s' := snd (processFile p s) in
  fails s' = fails s
  ∧ successCount s' = successCount s
  ∧ failureCount s' = failureCount s
  ∧ (∀ q, q ≠ p → q ≠ new_path p ext → files s' !! q = files s !! q)
  ∧ (ext ∉ SUPPORTED_EXTENSIONS → files s' = files s).
Proof.
  intros ext s'. subst s'.
  destruct (processFile_events p s) as (b & fs & Hrun & HR).
  rewrite Hrun. simpl snd. fold ext in HR.
  do 3 (split; [reflexivity|]). rewrite files_log_with.
  destruct HR as [ | | | | ? ? ? ? ? Hx Hr Hc Hn Hw Hu | ? ? ? ? ? Hx Hr Hc Hn Hw Hu ];
    try (split; [done|]; try done).
  - apply write_returns in Hw as ->. split; [|done].
    intros q _ Hq. by rewrite lookup_insert_ne.
  - apply write_returns in Hw as ->. apply unlink_returns in Hu as ->.
    split; [|done]. intros q Hp Hq. simpl files.
    by rewrite lookup_delete_ne, lookup_insert_ne.
Qed.

(** X2. The text of a file is never lost by [processFile]: when the call
    returns [false] the file is still at its path with the text it had; when
    it returns [true] the path is free and the new path holds what the
    engine made of that text. *)
Theorem source_never_lost (p src : string) (s : State) :
  files s !! p = Some src →
  let ext := JsString.toLowerCase (Path.extname p) in
  let s' := snd (processFile p s) in
  (fst (processFile p s) = Ok false ∧ files s' !! p = Some src)
  ∨ (fst (processFile p s) = Ok true
     ∧ files s' !! p = None
     ∧ ∃ code, pipeline src = Returns code ∧ code ≠ ""
               ∧ files s' !! new_path p ext = Some code).
Proof.
  intros Hp ext s'. subst s'.
  destruct (processFile_events p s) as (b & fs & Hrun & HR).
  rewrite Hrun. simpl fst; simpl snd. fold ext in HR. rewrite files_log_with.
  destruct HR as [ | | | | ? ? ? ? ? Hx Hr Hc Hn Hw Hu | ? ? ? ? ? Hx Hr Hc Hn Hw Hu ];
    try (by left).
  - left. split; [done|].
    destruct (read_returns _ _ _ Hr) as [Hts _].
    pose proof (new_path_differs p Hts Hx) as Hdiff.
    apply write_returns in Hw as ->. by rewrite lookup_insert_ne.
  - right. split; [done|].
    destruct (read_returns _ _ _ Hr) as [Hts Hsrc].
    pose proof (new_path_differs p Hts Hx) as Hdiff.
    apply write_returns in Hw as ->. apply unlink_returns in Hu as ->.
    simpl files. split; [apply lookup_delete_eq|].
    exists code. assert (src0 = src) as -> by congruence.
    split; [|split; [done|]].
    + unfold pipeline. inversion Hc as [ | | | tree out code' Hp1 Hp2 Hp3 ].
      by rewrite Hp1, Hp2.
    + rewrite lookup_delete_ne by done. apply lookup_insert_eq.
Qed.

Lemma ConvRun_pipeline (src : string) (r : option string) (cev : list Event) :
  ConvRun src r cev →
  match pipeline src with
  | Returns code =>
    r = Some code ∧ cev = [EvTransform (JsString.includes src "tsx") src]
  | Throws msg =>
    r = None
    ∧ (cev = [conversion_error msg]
       ∨ cev = [EvTransform (JsString.includes src "tsx") src; conversion_error msg])
  end.
Proof.
  unfold pipeline.
  destruct 1 as [msg Hp | tree msg Hp Ht | tree out msg Hp Ht Hc | tree out code Hp Ht Hc];
    rewrite Hp; try rewrite Ht; try rewrite Hc; auto.
Qed.

(** X3. [convertTypeScript] never throws and changes no file and no counter.
    It returns the text the engine printed, after one transform call; or,
    when [parse], the transform or [print] throws, it returns [null], and the
    last line it logs is the conversion error with the message thrown. *)
Theorem convertTypeScript_contains_errors (src : string) (s : State) :
  ∃ evs,
    convertTypeScript src s
    = (Ok (match pipeline src with Returns code => Some code | Throws _ => None end),
       log_events s evs)
    ∧ match pipeline src with
      | Returns _ => evs = [EvTransform (JsString.includes src "tsx") src]
      | Throws msg =>
        evs = [conversion_error msg]
        ∨ evs = [EvTransform (JsString.includes src "tsx") src; conversion_error msg]
      end.
Proof.
  destruct (convertTypeScript_run src s) as (r & evs & Hrun & Hc).
  exists evs. apply ConvRun_pipeline in Hc. rewrite Hrun.
  destruct (pipeline src); destruct Hc as [-> Hc]; done.
Qed.

(** X4. A conversion that gives nothing is a failure of the file with one
    fixed reason.  When the engine prints the empty text, [processFile] logs
    [Conversion failed] for the file and returns [false]; when the engine
    throws, the message thrown is in the conversion error line before it and
    not in the line of the file.  No file changes in either case. *)
Theorem conversion_without_output_fails (p src : string) (s : State) :
  JsString.toLowerCase (Path.extname p) ∈ SUPPORTED_EXTENSIONS →
  read_result p s = Returns src →
  pipeline src = Returns "" ∨ (∃ msg, pipeline src = Throws msg) →
  let transform := EvTransform (JsString.includes src "tsx") src in
  let failed := file_error p "Conversion failed" in
  fst (processFile p s) = Ok false
  ∧ files (snd (processFile p s)) = files s
  ∧ match pipeline src with
    | Returns _ => events_of (processFile p) s = [EvReadFile p; transform; failed]
    | Throws msg =>
      events_of (processFile p) s = [EvReadFile p; conversion_error msg; failed]
      ∨ events_of (processFile p) s
        = [EvReadFile p; transform; conversion_error msg; failed]
    end.
Proof.
  intros Hext Hread Hnone transform failed.
  destruct (processFile_events p s) as (b & fs & Hrun & HR).
  rewrite Hrun. simpl fst; simpl snd. rewrite files_log_with.
  set (evs := events_of (processFile p) s) in *. clearbody evs. clear Hrun.
  assert (Hout : ∀ code cev, ConvRun src (Some code) cev → code ≠ "" → False).
  { intros code cev Hc Hne. apply ConvRun_pipeline in Hc.
    destruct Hnone as [Hp | [msg Hp]]; rewrite Hp in Hc; destruct Hc; congruence. }
  destruct HR as [ | ? Hx Hr | ? ? ? Hx Hr Hc | ? ? ? ? Hx Hr Hc
                   | ? ? ? ? ? Hx Hr Hc | ? ? ? ? ? Hx Hr Hc ];
    try done; try congruence;
    assert (src0 = src) as -> by congruence;
    try (exfalso; by eapply Hout).
  split; [done|]. split; [done|].
  apply ConvRun_pipeline in Hc.
  destruct (pipeline src); destruct Hc as [-> Hc].
  - by rewrite Hc.
  - destruct Hc as [-> | ->]; [by left | by right].
Qed.

(** X5. When the unlink of the original throws, the converted file has been
    written and stays: [processFile] returns [false], logs the error of the
    unlink for the file, and both the original and the converted file are on
    disk. *)
Theorem unlink_failure_leaves_both (p src code msg : string) (s : State) :
  let ext := JsString.toLowerCase (Path.extname p) in
  let np := new_path p ext in
  let s' := snd (processFile p s) in
  ext ∈ SUPPORTED_EXTENSIONS →
  read_result p s = Returns src →
  pipeline src = Returns code → code ≠ "" →
  fails s OpWrite np = None →
  fails s OpUnlink p = Some msg →
  fst (processFile p s) = Ok false
  ∧ files s' !! p = Some src
  ∧ files s' !! np = Some code
  ∧ events_of (processFile p) s
    = [EvReadFile p; EvTransform (JsString.includes src "tsx") src;
       EvWriteFile np code; EvUnlink p; file_error p msg].
Proof.
  intros ext np s' Hext Hread Hpipe Hne Hw Hu. subst s'.
  destruct (read_returns _ _ _ Hread) as [Hts Hp].
  pose proof (new_path_differs p Hts Hext) as Hdiff.
  pose proof (new_path_no_trailing_slash p Hts Hext) as Hnts.
  fold ext in Hdiff, Hnts. fold np in Hdiff, Hnts.
  assert (Hwrite : write_result np code s = Returns (<[np := code]> (files s))).
  { unfold write_result. by rewrite Hnts, Hw. }
  assert (Hunlink : unlink_result p (with_files s (<[np := code]> (files s)))
                    = Throws msg).
  { unfold unlink_result. rewrite Hts. simpl fails. by rewrite Hu. }
  destruct (processFile_events p s) as (b & fs & Hrun & HR).
  rewrite Hrun. simpl fst; simpl snd. rewrite files_log_with.
  fold ext in HR. fold np in HR.
  set (evs := events_of (processFile p) s) in *. clearbody evs. clear Hrun.
  assert (Hcode : ∀ r cev, ConvRun src r cev →
            r = Some code ∧ cev = [EvTransform (JsString.includes src "tsx") src]).
  { intros r cev Hc. apply ConvRun_pipeline in Hc. by rewrite Hpipe in Hc. }
  destruct HR as [ | ? Hx Hr | ? ? ? Hx Hr Hc Hf | ? ? ? ? Hx Hr Hc Hn Hw'
                   | ? ? ? ? ? Hx Hr Hc Hn Hw' Hu' | ? ? ? ? ? Hx Hr Hc Hn Hw' Hu' ];
    try done; try congruence;
    assert (src0 = src) as -> by congruence;
    destruct (Hcode _ _ Hc) as [Hr' ->].
  - destruct Hf; congruence.
  - injection Hr' as ->. fold ext in Hw'; fold np in Hw'. congruence.
  - injection Hr' as ->. fold ext in Hw'; fold np in Hw'.
    rewrite Hwrite in Hw'. injection Hw' as <-.
    rewrite Hunlink in Hu'. injection Hu' as <-.
    split; [done|]. split; [by rewrite lookup_insert_ne|].
    split; [apply lookup_insert_eq | done].
  - injection Hr' as ->. fold ext in Hw'; fold np in Hw'.
    rewrite Hwrite in Hw'. injection Hw' as <-. congruence.
Qed.

End ConverterMore.

(** ** The markup mode *)

Section EngineArgument.

Context `{Engine}.

Lemma flag_is_search (b : bool) (src : string) :
  (b = true ↔ occurs "tsx" src) → b = JsString.includes src "tsx".
Proof.
  intros Hb. pose proof (includes_spec src "tsx") as Hs. fold (occurs "tsx" src) in Hs.
  destruct b, (JsString.includes src "tsx"); try reflexivity.
  - symmetry. apply Hs, Hb. reflexivity.
  - apply Hb, Hs. reflexivity.
Qed.

(** C8. The markup mode is [true] exactly when [tsx] occurs in the source
    text.  With that mode [b]: what [convertTypeScript] returns is what the
    engine gives when its transform is called with [b]; the transform is
    called, with [b] and the text, whenever [parse] returned, and with
    nothing else.  For a file of any path, every transform call is on the
    text read from the file with the mode of that text, and the text written
    by a call that returns [true] is the engine's output for mode [b]. *)
Theorem markup_mode_is_substring_test (p src : string) (s : State) (b : bool) :
  (b = true ↔ occurs "tsx" src) →
  fst (convertTypeScript src s)
  = Ok (match pipeline_with b src with Returns code => Some code | Throws _ => None end)
  ∧ (∀ flag t, EvTransform flag t ∈ events_of (convertTypeScript src) s →
               flag = b ∧ t = src)
  ∧ (∀ tree, parse src = Returns tree →
             EvTransform b src ∈ events_of (convertTypeScript src) s)
  ∧ (∀ flag t, EvTransform flag t ∈ events_of (processFile p) s →
               (flag = true ↔ occurs "tsx" t) ∧ read_result p s = Returns t)
  ∧ (read_result p s = Returns src → fst (processFile p s) = Ok true →
     ∃ code,
       pipeline_with b src = Returns code
       ∧ files (snd (processFile p s))
           !! new_path p (JsString.toLowerCase (Path.extname p)) = Some code).
Proof.
  intros Hb. apply flag_is_search in Hb as ->.
  change (pipeline_with (JsString.includes src "tsx") src) with (pipeline src).
  destruct (convertTypeScript_run src s) as (r & evs & Hrun & Hc).
  rewrite (events_of_run _ _ _ _ evs Hrun) by reflexivity.
  split; [|split; [|split; [|split]]].
  - rewrite Hrun. apply ConvRun_pipeline in Hc.
    destruct (pipeline src); destruct Hc as [-> _]; reflexivity.
  - intros flag t Hin. apply ConvRun_events in Hc.
    rewrite Forall_forall in Hc. destruct (Hc _ Hin) as [E | [msg E]]; [|done].
    by injection E as -> ->.
  - intros tree Hp.
    destruct Hc as [msg Hp' | | | ]; [congruence | | | ]; apply list_elem_of_here.
  - intros flag t Hin. by apply transform_event_of_file.
  - intros Hread Htrue.
    destruct (processFile_events p s) as (b' & fs & Hrun' & HR).
    rewrite Hrun' in Htrue |- *. simpl in Htrue. injection Htrue as ->.
    simpl snd. rewrite files_log_with.
    inversion HR as [ | | | | | src' code cev fs1 fs2 Hx Hr Hc' Hn Hw Hu Hb' Hev Hfs ].
    assert (src' = src) as -> by congruence.
    exists code. split.
    + apply ConvRun_pipeline in Hc'. destruct (pipeline src); destruct Hc' as [E _];
        congruence.
    + destruct (read_returns _ _ _ Hr) as [Hts _].
      pose proof (new_path_differs p Hts Hx) as Hdiff.
      apply write_returns in Hw as ->. apply unlink_returns in Hu as ->.
      simpl files. rewrite lookup_delete_ne by done. apply lookup_insert_eq.
Qed.

End EngineArgument.

(** ** The extension of a converted file *)

Section OutputExtension.

Import Path.

Lemma get_append_l (s t : string) (i : nat) :
  (i < String.length s)%nat → String.get i (s +:+ t) = String.get i s.
Proof.
  revert i; induction s as [|c s IH]; intros i Hi; simpl in Hi; [lia|].
  change (String c s +:+ t) with (String c (s +:+ t)).
  destruct i as [|i]; [reflexivity|]. simpl. apply IH. lia.
Qed.

Lemma extname_loop_agree (p q : string) (n : nat) (st : scan) :
  (∀ i, (i < n)%nat → String.get i p = String.get i q) →
  extname_loop p n st = extname_loop q n st.
Proof.
  revert st; induction n as [|i IH]; intros st Hpq; [reflexivity|].
  simpl. rewrite (Hpq i) by lia.
  destruct (String.get i q) as [c|]; [|reflexivity].
  destruct (Ascii.eqb c "/").
  - destruct (negb (matchedSlash st)); [reflexivity|]. apply IH. intros; apply Hpq; lia.
  - apply IH. intros; apply Hpq; lia.
Qed.

Lemma see_char_startDot_keep (i : nat) (c : ascii) (st : scan) :
  startDot st ≠ (-1)%Z → endIdx st ≠ (-1)%Z →
  startDot (see_char i c st) = startDot st.
Proof.
  intros Hs He. unfold see_char.
  destruct (Z.eqb_spec (endIdx st) (-1)); [done|].
  destruct (Z.eqb_spec (startDot st) (-1)); [done|].
  repeat (case_match; simpl; try reflexivity).
Qed.

Lemma extname_loop_startDot_keep (p : string) (n : nat) (st : scan) :
  startDot st ≠ (-1)%Z → endIdx st ≠ (-1)%Z →
  startDot (extname_loop p n st) = startDot st.
Proof.
  revert st; induction n as [|i IH]; intros st Hs He; [reflexivity|].
  simpl. destruct (String.get i p) as [c|]; [|reflexivity].
  destruct (Ascii.eqb c "/").
  - destruct (matchedSlash st); simpl; [by apply IH | reflexivity].
  - rewrite IH.
    + by apply see_char_startDot_keep.
    + by rewrite see_char_startDot_keep.
    + by rewrite see_char_endIdx.
Qed.

Lemma substring_append_tail (s t : string) :
  String.substring (String.length s) (String.length t) (s +:+ t) = t.
Proof.
  induction s as [|c s IH]; [|exact IH].
  change ("" +:+ t) with t. simpl String.length.
  induction t as [|d t IHt]; simpl; congruence.
Qed.

Lemma extname_loop_step (p : string) (i : nat) (c : ascii) (st : scan) :
  String.get i p = Some c → plain c → endIdx st ≠ (-1)%Z → startDot st = (-1)%Z →
  extname_loop p (S i) st = extname_loop p i st.
Proof.
  intros Hget [Hdot Hslash] He Hs. simpl. rewrite Hget.
  destruct (Ascii.eqb_spec c "/"); [done|].
  f_equal. unfold see_char.
  destruct (Z.eqb_spec (endIdx st) (-1)); [done|].
  destruct (Ascii.eqb_spec c "."); [done|].
  rewrite Hs. simpl. reflexivity.
Qed.

(** The scan of [stem.xyz...]: after the characters of the extension and
    its dot, the scan goes on over the stem with the dot and the end
    fixed. *)
Lemma extname_loop_dotted (stem rest : string) (c : ascii) :
  plain c →
  (∀ i d, String.get i rest = Some d → plain d) →
  let w := stem +:+ String "." (rest +:+ String c "") in
  extname_loop w (String.length w) scan0
  = extname_loop stem (String.length stem)
      (Scan (Z.of_nat (String.length stem)) 0 (Z.of_nat (String.length w)) false 0).
Proof.
  intros Hc Hrest w.
  assert (HL : String.length w
               = S (String.length stem + 1 + String.length rest)).
  { unfold w. rewrite length_append. simpl. rewrite length_append. simpl. lia. }
  assert (Hget : ∀ k, String.get (String.length stem + k) w
                      = String.get k (String "." (rest +:+ String c ""))).
  { intros k. unfold w. apply get_last_append. }
  (* the last character fixes the end *)
  assert (Hlast : String.get (String.length stem + 1 + String.length rest) w = Some c).
  { rewrite <- Nat.add_assoc, Hget. simpl.
    clear. induction rest as [|d rest IH]; [reflexivity | exact IH]. }
  rewrite HL at 1. simpl. rewrite Hlast.
  destruct Hc as [Hdot Hslash].
  destruct (Ascii.eqb_spec c "/"); [done|].
  assert (see_char (String.length stem + 1 + String.length rest) c scan0
          = Scan (-1) 0 (Z.of_nat (String.length w)) false 0) as ->.
  { unfold see_char. simpl. destruct (Ascii.eqb_spec c "."); [done|].
    simpl. f_equal. lia. }
  (* the characters of [rest], from the right *)
  assert (Hmid : ∀ k, (k ≤ String.length rest)%nat →
            extname_loop w (String.length stem + 1 + k)
              (Scan (-1) 0 (Z.of_nat (String.length w)) false 0)
            = extname_loop w (String.length stem + 1)
                (Scan (-1) 0 (Z.of_nat (String.length w)) false 0)).
  { induction k as [|k IH]; intros Hk; [by rewrite Nat.add_0_r|].
    rewrite Nat.add_succ_r.
    assert (Hk' : ∃ d, String.get (String.length stem + 1 + k) w = Some d ∧ plain d).
    { rewrite <- Nat.add_assoc, Hget. simpl.
      assert (Hin : ∃ d, String.get k rest = Some d).
      { clear -Hk. revert k Hk. induction rest as [|d rest IH]; intros k Hk;
          simpl in Hk; [lia|]. destruct k; simpl; [by eexists|]. apply IH. lia. }
      destruct Hin as [d Hd]. exists d. split; [|by eapply Hrest].
      clear -Hd. revert k Hd. induction rest as [|e rest IH]; intros k Hd; [done|].
      change (String e rest +:+ String c "") with (String e (rest +:+ String c "")).
      destruct k; simpl in *; [done|]. by apply IH. }
    destruct Hk' as (d & Hd & Hpl).
    rewrite (extname_loop_step w _ d) by (try done; simpl; lia).
    apply IH. lia. }
  rewrite (Hmid (String.length rest)) by lia.
  (* the dot *)
  replace (String.length stem + 1)%nat with (S (String.length stem)) by lia.
  simpl. replace (String.length stem) with (String.length stem + 0)%nat at 1 by lia.
  rewrite Hget. simpl.
  assert (see_char (String.length stem) "."
            (Scan (-1) 0 (Z.of_nat (String.length w)) false 0)
          = Scan (Z.of_nat (String.length stem)) 0 (Z.of_nat (String.length w)) false 0)
    as ->.
  { unfold see_char. simpl.
    destruct (Z.eqb_spec (Z.of_nat (String.length w)) (-1)); [lia|]. reflexivity. }
  apply extname_loop_agree. intros i Hi. unfold w. by apply get_append_l.
Qed.

Lemma extname_swap (stem rest rest' : string) (c c' : ascii) :
  plain c → (∀ i d, String.get i rest = Some d → plain d) →
  plain c' → (∀ i d, String.get i rest' = Some d → plain d) →
  String.length rest = String.length rest' →
  extname (stem +:+ String "." (rest +:+ String c "")) ≠ "" →
  extname (stem +:+ String "." (rest' +:+ String c' ""))
  = String "." (rest' +:+ String c' "").
Proof.
  intros Hc Hrest Hc' Hrest' Hlen.
  unfold extname.
  rewrite (extname_loop_dotted stem rest c Hc Hrest).
  rewrite (extname_loop_dotted stem rest' c' Hc' Hrest').
  set (x := String "." (rest +:+ String c "")).
  set (x' := String "." (rest' +:+ String c' "")).
  assert (Hxx : String.length (stem +:+ x) = String.length (stem +:+ x')).
  { rewrite !length_append. unfold x, x'. simpl. rewrite !length_append. simpl. lia. }
  rewrite Hxx.
  set (st0 := Scan (Z.of_nat (String.length stem)) 0
                (Z.of_nat (String.length (stem +:+ x'))) false 0).
  assert (Hs : startDot (extname_loop stem (String.length stem) st0)
               = Z.of_nat (String.length stem)).
  { rewrite extname_loop_startDot_keep; simpl; lia. }
  assert (He : endIdx (extname_loop stem (String.length stem) st0)
               = Z.of_nat (String.length (stem +:+ x'))).
  { rewrite extname_loop_endIdx; simpl; lia. }
  set (st := extname_loop stem (String.length stem) st0) in *.
  case_match; [done|]. intros _.
  rewrite Hs, He. unfold JsString.slice, JsString.clamp_index.
  destruct (Z.ltb_spec (Z.of_nat (String.length stem)) 0); [lia|].
  destruct (Z.ltb_spec (Z.of_nat (String.length (stem +:+ x'))) 0); [lia|].
  rewrite length_append.
  replace (Z.to_nat (Z.min (Z.of_nat (String.length stem))
                       (Z.of_nat (String.length stem + String.length x'))))
    with (String.length stem) by lia.
  replace (Z.to_nat _) with (String.length x') by lia.
  apply substring_append_tail.
Qed.

Lemma lower_ascii_dot (c : ascii) : JsString.lower_ascii c = "."%char → c = "."%char.
Proof.
  destruct c as [[] [] [] [] [] [] [] []]; vm_compute; intros E;
    first [reflexivity | discriminate E].
Qed.

Lemma lower_ascii_plain (c : ascii) : plain (JsString.lower_ascii c) → plain c.
Proof. intros [Hd Hs]. split; intros ->; [apply Hd | apply Hs]; reflexivity. Qed.

(** The extension of the new path is the mapped extension: after [.ts] has
    become [.js], or [.tsx] [.jsx], [path.extname] finds the new one. *)
Lemma extname_new_path (p : string) :
  trailing_slash p = false →
  JsString.toLowerCase (extname p) ∈ SUPPORTED_EXTENSIONS →
  extname (new_path p (JsString.toLowerCase (extname p)))
  = output_extension (JsString.toLowerCase (extname p)).
Proof.
  intros Hts Hext.
  destruct (new_path_stem p Hts Hext) as (stem & Hp & ->).
  assert (Hne : extname (stem +:+ extname p) ≠ "").
  { rewrite <- Hp. intros E. rewrite E in Hext.
    apply supported_cases in Hext. destruct Hext; discriminate. }
  revert Hext Hne. generalize (extname p). clear Hp Hts p.
  intros e Hext Hne. apply supported_cases in Hext.
  destruct Hext as [Hx | Hx]; rewrite Hx.
  - destruct e as [|c0 [|c1 [|c2 [|c3 e]]]]; try discriminate Hx.
    injection Hx as H0 H1 H2. apply lower_ascii_dot in H0 as ->.
    assert (plain c1) by (apply lower_ascii_plain; rewrite H1; by split).
    assert (plain c2) by (apply lower_ascii_plain; rewrite H2; by split).
    apply (extname_swap stem (String c1 "") "j" c2 "s"); try done.
    + intros [|[|i]] d; simpl; intros [= <-]. done.
    + intros [|[|i]] d; simpl; intros [= <-]. by split.
  - destruct e as [|c0 [|c1 [|c2 [|c3 [|c4 e]]]]]; try discriminate Hx.
    injection Hx as H0 H1 H2 H3. apply lower_ascii_dot in H0 as ->.
    assert (plain c1) by (apply lower_ascii_plain; rewrite H1; by split).
    assert (plain c2) by (apply lower_ascii_plain; rewrite H2; by split).
    assert (plain c3) by (apply lower_ascii_plain; rewrite H3; by split).
    apply (extname_swap stem (String c1 (String c2 "")) "js" c3 "x"); try done.
    + intros [|[|[|i]]] d; simpl; intros [= <-]; done.
    + intros [|[|[|i]]] d; simpl; intros [= <-]; by split.
Qed.

End OutputExtension.

(** ** A second run *)

Section SecondRun.

Context `{Engine}.

Lemma output_not_supported (ext : string) :
  ext ∈ SUPPORTED_EXTENSIONS →
  JsString.toLowerCase (output_extension ext) ∉ SUPPORTED_EXTENSIONS.
Proof.
  intros Hext Hin. apply supported_cases in Hext. apply supported_cases in Hin.
  destruct Hext as [-> | ->]; vm_compute in Hin; destruct Hin; discriminate.
Qed.

(** X6. What [processFile] has converted it does not convert again: after a
    call that returned [true], the extension of the new path is [.js] or
    [.jsx], and a call on the new path only warns that the file type is not
    supported, returns [false] and changes no file. *)
Theorem converted_output_is_skipped (p : string) (s : State) :
  fst (processFile p s) = Ok true →
  let ext := JsString.toLowerCase (Path.extname p) in
  let np := new_path p ext in
  let s1 := snd (processFile p s) in
  Path.extname np = output_extension ext
  ∧ (output_extension ext = ".js" ∨ output_extension ext = ".jsx")
  ∧ processFile np s1 = (Ok false, log_events s1 [skip_warning np]).
Proof.
  intros Htrue ext np s1.
  destruct (processFile_events p s) as (b & fs & Hrun & HR).
  rewrite Hrun in Htrue. simpl in Htrue. injection Htrue as ->.
  inversion HR as [ | | | | | src code cev fs1 fs2 Hx Hr Hc Hn Hw Hu Hb Hev Hfs ].
  destruct (read_returns _ _ _ Hr) as [Hts _].
  pose proof (extname_new_path p Hts Hx) as Hnew. fold ext in Hnew. fold np in Hnew.
  split; [done|]. split.
  - fold ext in Hx. destruct (supported_cases _ Hx) as [-> | ->]; [left | right]; done.
  - unfold processFile. rewrite Hnew.
    rewrite bool_decide_eq_false_2 by by apply output_not_supported.
    reflexivity.
Qed.

End SecondRun.

(** ** Whole walks *)

Section WalkMore.

Context `{Engine}.
Variable path_join : string → string → string.

Abbreviation processEntry := (processEntry path_join).
Abbreviation processDirectory := (processDirectory path_join).

Lemma processEntry_counts (e : Dirent) :
  ∀ cur s, ∃ s',
    processEntry cur e s = (Ok tt, s') ∧ total s' = total s + counted e.
Proof.
  induction e as [n|n|n message|n entries IH] using Dirent_tree_ind; intros cur s.
  - rewrite processEntry_file.
    destruct (processFile_events (path_join cur n) s) as (b & fs & Hrun & _).
    erewrite bind_Ok by exact Hrun.
    destruct b; eexists; (split; [reflexivity|]); unfold total; simpl; lia.
  - exists s. split; [reflexivity|]. unfold total; simpl; lia.
  - rewrite processEntry_dir. simpl counted. destruct (descends n).
    + rewrite processDirectory_unreadable. eexists. split; [reflexivity|].
      unfold total; simpl; lia.
    + exists s. split; [reflexivity|]. unfold total; simpl; lia.
  - rewrite processEntry_dir. simpl counted. destruct (descends n).
    + assert (Hloop : ∀ s0, ∃ s',
                forM_ (processEntry (path_join cur n)) entries s0 = (Ok tt, s')
                ∧ total s' = total s0 + list_sum (map counted entries)).
      { induction IH as [|e l He _ IHl]; intros s0.
        - exists s0. split; [reflexivity|]. simpl. lia.
        - destruct (He (path_join cur n) s0) as (s1 & Hs1 & Ht1).
          destruct (IHl s1) as (s2 & Hs2 & Ht2).
          exists s2. split.
          + change (forM_ (processEntry (path_join cur n)) (e :: l))
              with (processEntry (path_join cur n) e ;;
                    forM_ (processEntry (path_join cur n)) l).
            by erewrite bind_Ok by exact Hs1.
          + simpl. lia. }
      destruct (Hloop (log_events s [EvReaddir (path_join cur n)])) as (s' & Hs' & Ht).
      exists s'. split; [by apply processDirectory_listing|]. exact Ht.
    + exists s. split; [reflexivity|]. unfold total; simpl; lia.
Qed.

Lemma entries_counts (cur : string) (entries : list Dirent) (s : State) :
  ∃ s', forM_ (processEntry cur) entries s = (Ok tt, s')
        ∧ total s' = total s + list_sum (map counted entries).
Proof.
  revert s; induction entries as [|e l IH]; intros s.
  - exists s. split; [reflexivity|]. simpl. lia.
  - destruct (processEntry_counts e cur s) as (s1 & Hs1 & Ht1).
    destruct (IH s1) as (s2 & Hs2 & Ht2).
    exists s2. split; [|simpl; lia].
    change (forM_ (processEntry cur) (e :: l))
      with (processEntry cur e ;; forM_ (processEntry cur) l).
    by erewrite bind_Ok by exact Hs1.
Qed.

(** X7. [convertDirectory] never throws, and the two numbers it returns add
    up to the number of file entries the walk reaches plus the number of
    directories it enters and cannot enumerate, the root among them.  What
    is under an ignored or hidden directory, and entries that are neither
    files nor directories, are in neither number. *)
Theorem walk_accounting (dirPath : string) (listing : completion (list Dirent))
    (s : State) :
  ∃ success failure s',
    convertDirectory path_join dirPath listing s = (Ok (success, failure), s')
    ∧ success + failure = counted_listing listing.
Proof.
  unfold convertDirectory.
  erewrite bind_Ok by reflexivity.
  set (s0 := mkState (files s) (fails s) (trace s) 0 0).
  destruct listing as [entries|message].
  - destruct (entries_counts dirPath entries (log_events s0 [EvReaddir dirPath]))
      as (s' & Hs' & Ht).
    exists (successCount s'), (failureCount s'), s'. split.
    + erewrite bind_Ok by (apply processDirectory_listing; exact Hs'). reflexivity.
    + exact Ht.
  - erewrite bind_Ok by apply processDirectory_unreadable.
    by eexists _, _, _.
Qed.

Lemma processFile_safe (p : string) (s : State) :
  Forall safe_event (events_of (processFile p) s).
Proof.
  destruct (processFile_events p s) as (b & fs & _ & HR).
  set (evs := events_of (processFile p) s) in *. clearbody evs.
  assert (Hcev : ∀ src r cev, ConvRun src r cev → Forall safe_event cev).
  { intros src r cev Hc. apply ConvRun_events in Hc.
    eapply Forall_impl; [exact Hc|]. intros ev [-> | [msg ->]]; exact I. }
  assert (Hwrite : ∀ src code,
            JsString.toLowerCase (Path.extname p) ∈ SUPPORTED_EXTENSIONS →
            read_result p s = Returns src →
            safe_event
              (EvWriteFile (new_path p (JsString.toLowerCase (Path.extname p))) code)).
  { intros src code Hx Hr. destruct (read_returns _ _ _ Hr) as [Hts _].
    destruct (new_path_stem p Hts Hx) as (stem & _ & ->).
    exists stem. destruct (supported_cases _ Hx) as [-> | ->]; [by left | by right]. }
  destruct HR as [ | | ? ? ? Hx Hr Hc | ? ? ? ? Hx Hr Hc | ? ? ? ? ? Hx Hr Hc
                   | ? ? ? ? ? Hx Hr Hc ];
    repeat first [ apply Forall_cons; split; [first [exact I | exact Hx | by eapply Hwrite]|]
                 | apply Forall_app; split; [by eapply Hcev|]
                 | apply Forall_nil_2 ].
Qed.

Lemma processEntry_safe (e : Dirent) :
  ∀ cur s, ∃ s' (evs : list Event),
    processEntry cur e s = (Ok tt, s')
    ∧ trace s' = trace s ++ evs ∧ Forall safe_event evs.
Proof.
  induction e as [n|n|n message|n entries IH] using Dirent_tree_ind; intros cur s.
  - rewrite processEntry_file.
    destruct (processFile_events (path_join cur n) s) as (b & fs & Hrun & _).
    erewrite bind_Ok by exact Hrun.
    destruct b; eexists _, _; (split; [reflexivity|]);
      (split; [reflexivity | apply processFile_safe]).
  - exists s, []. split; [reflexivity|]. split; [by rewrite app_nil_r | constructor].
  - rewrite processEntry_dir. destruct (descends n).
    + rewrite processDirectory_unreadable. eexists _, _. split; [reflexivity|].
      split; [reflexivity|]. by repeat constructor.
    + exists s, []. split; [reflexivity|]. split; [by rewrite app_nil_r | constructor].
  - rewrite processEntry_dir. destruct (descends n).
    + assert (Hloop : ∀ s0, ∃ s' (evs : list Event),
                forM_ (processEntry (path_join cur n)) entries s0 = (Ok tt, s')
                ∧ trace s' = trace s0 ++ evs ∧ Forall safe_event evs).
      { induction IH as [|e l He _ IHl]; intros s0.
        - exists s0, []. split; [reflexivity|].
          split; [by rewrite app_nil_r | constructor].
        - destruct (He (path_join cur n) s0) as (s1 & e1 & Hs1 & Ht1 & Hf1).
          destruct (IHl s1) as (s2 & e2 & Hs2 & Ht2 & Hf2).
          exists s2, (e1 ++ e2). split; [|split].
          + change (forM_ (processEntry (path_join cur n)) (e :: l))
              with (processEntry (path_join cur n) e ;;
                    forM_ (processEntry (path_join cur n)) l).
            by erewrite bind_Ok by exact Hs1.
          + by rewrite Ht2, Ht1, app_assoc.
          + by apply Forall_app. }
      destruct (Hloop (log_events s [EvReaddir (path_join cur n)]))
        as (s' & evs & Hs' & Ht & Hf).
      exists s', (EvReaddir (path_join cur n) :: evs).
      split; [by apply processDirectory_listing|]. split.
      * rewrite Ht. simpl. by rewrite <- app_assoc.
      * by constructor.
    + exists s, []. split; [reflexivity|]. split; [by rewrite app_nil_r | constructor].
Qed.

Lemma directory_safe (cur : string) (listing : completion (list Dirent))
    (s : State) :
  ∃ s' (evs : list Event),
    processDirectory cur listing s = (Ok tt, s')
    ∧ trace s' = trace s ++ evs ∧ Forall safe_event evs.
Proof.
  destruct listing as [entries|message].
  - assert (Hloop : ∀ s0, ∃ s' (evs : list Event),
              forM_ (processEntry cur) entries s0 = (Ok tt, s')
              ∧ trace s' = trace s0 ++ evs ∧ Forall safe_event evs).
    { induction entries as [|e l IHl]; intros s0.
      - exists s0, []. split; [reflexivity|].
        split; [by rewrite app_nil_r | constructor].
      - destruct (processEntry_safe e cur s0) as (s1 & e1 & Hs1 & Ht1 & Hf1).
        destruct (IHl s1) as (s2 & e2 & Hs2 & Ht2 & Hf2).
        exists s2, (e1 ++ e2). split; [|split].
        + change (forM_ (processEntry cur) (e :: l))
            with (processEntry cur e ;; forM_ (processEntry cur) l).
          by erewrite bind_Ok by exact Hs1.
        + by rewrite Ht2, Ht1, app_assoc.
        + by apply Forall_app. }
    destruct (Hloop (log_events s [EvReaddir cur])) as (s' & evs & Hs' & Ht & Hf).
    exists s', (EvReaddir cur :: evs).
    split; [by apply processDirectory_listing|]. split.
    + rewrite Ht. simpl. by rewrite <- app_assoc.
    + by constructor.
  - rewrite processDirectory_unreadable. eexists _, _. split; [reflexivity|].
    split; [reflexivity|]. by repeat constructor.
Qed.

(** X8. A walk deletes only files whose extension, in lower case, is [.ts]
    or [.tsx], and writes only to paths that end in [.js] or [.jsx]. *)
Theorem walk_is_safe (dirPath : string) (listing : completion (list Dirent))
    (s : State) :
  Forall safe_event (events_of (convertDirectory path_join dirPath listing) s).
Proof.
  set (s0 := mkState (files s) (fails s) (trace s) 0 0).
  destruct (directory_safe dirPath listing s0) as (s' & evs & Hs' & Ht & Hf).
  erewrite (events_of_run _ s s' _ evs); [exact Hf | | exact Ht].
  unfold convertDirectory.
  erewrite bind_Ok by reflexivity.
  erewrite bind_Ok by exact Hs'. reflexivity.
Qed.

Lemma nothing_to_convert_entries (cur n : string) (entries : list Dirent) :
  descends n = true →
  nothing_to_convert path_join cur (EntDir n (Returns entries))
  ↔ Forall (nothing_to_convert path_join (path_join cur n)) entries.
Proof.
  intros Hd. simpl. rewrite Hd.
  induction entries as [|e l IH]; [by split; [constructor|]|].
  rewrite Forall_cons, IH. reflexivity.
Qed.

Lemma processEntry_nothing (e : Dirent) :
  ∀ cur s, nothing_to_convert path_join cur e →
    ∃ s', processEntry cur e s = (Ok tt, s')
          ∧ files s' = files s ∧ successCount s' = successCount s.
Proof.
  induction e as [n|n|n message|n entries IH] using Dirent_tree_ind;
    intros cur s Hnone.
  - simpl in Hnone. rewrite processEntry_file.
    unfold processFile. rewrite bool_decide_eq_false_2 by done. simpl negb. cbv iota.
    erewrite bind_Ok by (erewrite bind_Ok by apply console_run; reflexivity).
    by eexists.
  - by exists s.
  - rewrite processEntry_dir. destruct (descends n).
    + rewrite processDirectory_unreadable. by eexists.
    + by exists s.
  - rewrite processEntry_dir. destruct (descends n) eqn:Hd; [|by exists s].
    apply nothing_to_convert_entries in Hnone; [|done].
    assert (Hloop : ∀ s0, ∃ s',
              forM_ (processEntry (path_join cur n)) entries s0 = (Ok tt, s')
              ∧ files s' = files s0 ∧ successCount s' = successCount s0).
    { induction IH as [|e l He _ IHl]; intros s0; [by exists s0|].
      apply Forall_cons in Hnone as [Hne Hnl].
      destruct (He (path_join cur n) s0 Hne) as (s1 & Hs1 & Hf1 & Hc1).
      destruct (IHl Hnl s1) as (s2 & Hs2 & Hf2 & Hc2).
      exists s2. split; [|split; congruence].
      change (forM_ (processEntry (path_join cur n)) (e :: l))
        with (processEntry (path_join cur n) e ;;
              forM_ (processEntry (path_join cur n)) l).
      by erewrite bind_Ok by exact Hs1. }
    destruct (Hloop (log_events s [EvReaddir (path_join cur n)])) as (s' & Hs' & Hf & Hc).
    exists s'. split; [by apply processDirectory_listing|]. done.
Qed.

Lemma entries_nothing (cur : string) (entries : list Dirent) (s : State) :
  Forall (nothing_to_convert path_join cur) entries →
  ∃ s', forM_ (processEntry cur) entries s = (Ok tt, s')
        ∧ files s' = files s ∧ successCount s' = successCount s.
Proof.
  revert s; induction entries as [|e l IH]; intros s Hnone; [by exists s|].
  apply Forall_cons in Hnone as [Hne Hnl].
  destruct (processEntry_nothing e cur s Hne) as (s1 & Hs1 & Hf1 & Hc1).
  destruct (IH s1 Hnl) as (s2 & Hs2 & Hf2 & Hc2).
  exists s2. split; [|split; congruence].
  change (forM_ (processEntry cur) (e :: l))
    with (processEntry cur e ;; forM_ (processEntry cur) l).
  by erewrite bind_Ok by exact Hs1.
Qed.

(** X9. A walk over a tree in which no file that it reaches has a
    recognised extension, such as a tree that has been converted, converts
    nothing: no file changes, the number of successes is zero and the number
    of failures is the number of entries counted. *)
Theorem nothing_left_to_convert (dirPath : string) (entries : list Dirent)
    (s : State) :
  Forall (nothing_to_convert path_join dirPath) entries →
  ∃ s',
    convertDirectory path_join dirPath (Returns entries) s
    = (Ok (0, list_sum (map counted entries)), s')
    ∧ files s' = files s.
Proof.
  intros Hnone. unfold convertDirectory.
  erewrite bind_Ok by reflexivity.
  set (s0 := log_events (mkState (files s) (fails s) (trace s) 0 0) [EvReaddir dirPath]).
  destruct (entries_nothing dirPath entries s0 Hnone) as (s' & Hs' & Hf & Hc).
  destruct (entries_counts dirPath entries s0) as (s'' & Hs'' & Ht).
  assert (s'' = s') as -> by congruence.
  erewrite bind_Ok by (apply processDirectory_listing; exact Hs').
  exists s'. split; [|exact Hf].
  unfold read_counters. do 2 f_equal. unfold total in Ht. simpl in Ht, Hc.
  f_equal; lia.
Qed.

(** X10. Links, sockets and the like, and ignored or hidden directories
    with whatever they hold, leave no mark on a walk: the loop over the
    entries of a directory ends in the same state, with the same trace and
    the same counters, as the loop over the entries without them. *)
Theorem passed_over_entries_are_transparent (cur : string) (e : Dirent)
    (pre post : list Dirent) (s : State) :
  passed_over e →
  forM_ (processEntry cur) (pre ++ e :: post) s
  = forM_ (processEntry cur) (pre ++ post) s.
Proof.
  intros Hpass.
  assert (Hskip : ∀ s1, processEntry cur e s1 = (Ok tt, s1)).
  { intros s1. destruct e as [n|n listing|n]; [done| |reflexivity].
    rewrite processEntry_dir.
    destruct (descends n) eqn:Hd; [|reflexivity].
    apply descends_spec in Hd as [Hi Hh]. by destruct Hpass. }
  destruct (entries_total path_join cur pre s) as (s1 & Hs1 & _).
  rewrite !(forM_app _ _ _ _ _ Hs1).
  change (forM_ (processEntry cur) (e :: post))
    with (processEntry cur e ;; forM_ (processEntry cur) post).
  by erewrite bind_Ok by apply Hskip.
Qed.

End WalkMore.

(** ** Into a directory *)

Section Descent.

Context `{Engine}.
Variable path_join : string → string → string.

Abbreviation processEntry := (processEntry path_join).

(** C6. For a directory entry, [readdir] on its path is the next event
    exactly when its name is not in [IGNORED_DIRS] and does not begin with a
    dot.  The walker then goes into it: every entry of its listing is
    processed, in order, under the joined path, each in the state the
    entries before it left, and the two counters grow together by the
    number of entries counted below it.  Otherwise the entry changes
    nothing: no event, no file, no counter. *)
Theorem directory_entered_iff_not_ignored (cur n : string)
    (listing : completion (list Dirent)) (s : State) :
  let fullPath := path_join cur n in
  let entered := log_events s [EvReaddir fullPath] in
  ((∃ s' (evs : list Event),
       processEntry cur (EntDir n listing) s = (Ok tt, s')
       ∧ trace s' = trace s ++ EvReaddir fullPath :: evs)
   ↔ (n ∉ IGNORED_DIRS) ∧ ¬ hidden n)
  ∧ (n ∉ IGNORED_DIRS → ¬ hidden n →
     ∃ s',
       processEntry cur (EntDir n listing) s = (Ok tt, s')
       ∧ successCount s' + failureCount s'
         = successCount s + failureCount s + counted_listing listing
       ∧ ∀ entries, listing = Returns entries →
           forM_ (processEntry fullPath) entries entered = (Ok tt, s')
           ∧ ∀ pre e post, entries = pre ++ e :: post →
               ∃ s1 s2,
                 forM_ (processEntry fullPath) pre entered = (Ok tt, s1)
                 ∧ processEntry fullPath e s1 = (Ok tt, s2)
                 ∧ forM_ (processEntry fullPath) post s2 = (Ok tt, s'))
  ∧ (n ∈ IGNORED_DIRS ∨ hidden n →
     processEntry cur (EntDir n listing) s = (Ok tt, s)).
Proof.
  intros fullPath entered.
  destruct (readdir_iff_not_ignored path_join cur n listing s) as [Hiff Hskip].
  split; [exact Hiff|]. split; [|exact Hskip].
  intros Hi Hh.
  assert (Hd : descends n = true) by by apply descends_spec.
  rewrite processEntry_dir, Hd. fold fullPath.
  destruct listing as [entries|message].
  - destruct (entries_counts path_join fullPath entries entered) as (s' & Hs' & Ht).
    exists s'. split; [by apply processDirectory_listing|].
    split; [exact Ht|].
    intros entries' [= <-]. split; [exact Hs'|].
    intros pre e post ->.
    destruct (entries_total path_join fullPath pre entered) as (s1 & Hs1 & _).
    destruct (processEntry_total path_join e fullPath s1) as (s2 & Hs2 & _).
    exists s1, s2. split; [exact Hs1|]. split; [exact Hs2|].
    rewrite (forM_app _ _ _ _ _ Hs1) in Hs'.
    change (forM_ (processEntry fullPath) (e :: post))
      with (processEntry fullPath e ;; forM_ (processEntry fullPath) post) in Hs'.
    by erewrite bind_Ok in Hs' by exact Hs2.
  - rewrite processDirectory_unreadable. eexists. split; [reflexivity|].
    split; [simpl; lia | done].
Qed.

End Descent.

(** ** The two modes *)

Section ModeFacts.

Context `{Engine}.
Variable path_join : string → string → string.

(** X11. A file given on the command line wins over the directory: the run
    is the verbose line, if asked for, and then the call of [processFile] on
    that file.  The directory is not read, nothing is counted, no summary is
    printed, and what [processFile] returns is dropped. *)
Theorem file_mode_ignores_directory (opts : Options)
    (listing : completion (list Dirent)) (s : State) (f : string) :
  file opts = Some f → f ≠ "" → dryRun opts = false →
  main path_join opts listing s
  = (Ok tt, snd (processFile f (log_events s (verbose_events opts)))).
Proof.
  intros Hf Hne Hdry. unfold main.
  rewrite main_prelude, Hdry, app_nil_r, Hf.
  assert (truthy (Some f) = Some f) as -> by by destruct f.
  set (s0 := log_events s (verbose_events opts)).
  destruct (processFile_run f s0) as (b & evs & fs & Hrun & _).
  rewrite Hrun. apply try_catch_Ok. by erewrite bind_Ok by exact Hrun.
Qed.

(** X12. Without a file, or with the empty string for one, the run walks
    the directory: after the verbose line, if asked for, it is the walk of
    [convertDirectory], and the last line printed carries the two numbers
    the walk returned. *)
Theorem directory_mode_reports_counts (opts : Options)
    (listing : completion (list Dirent)) (s : State) :
  file opts = None ∨ file opts = Some "" → dryRun opts = false →
  ∃ success failure s1,
    convertDirectory path_join (dir opts) listing (log_events s (verbose_events opts))
    = (Ok (success, failure), s1)
    ∧ main path_join opts listing s
      = (Ok tt, log_events s1 [summary_line success failure]).
Proof.
  intros Hf Hdry.
  set (s0 := log_events s (verbose_events opts)).
  destruct (convertDirectory_total path_join (dir opts) listing s0)
    as ([a b] & s1 & Hrun).
  exists a, b, s1. split; [exact Hrun|].
  unfold main. rewrite main_prelude, Hdry, app_nil_r.
  assert (truthy (file opts) = None) as -> by (destruct Hf as [-> | ->]; reflexivity).
  apply try_catch_Ok. fold s0. erewrite bind_Ok by exact Hrun. reflexivity.
Qed.

End ModeFacts.

(** ** The last line of a call *)

Section OutcomeLine.

Context `{Engine}.

(** X13. The last thing every call of [processFile] does is print one line
    about the file, and the line tells the result: the call returns [true]
    exactly when that line is the success line; otherwise the line is the
    warning for an unsupported type or an error line naming the file. *)
Theorem last_line_tells_result (p : string) (s : State) :
  let np := new_path p (JsString.toLowerCase (Path.extname p)) in
  let line := last (events_of (processFile p) s) in
  (fst (processFile p s) = Ok true ↔ line = Some (success_line p np))
  ∧ (fst (processFile p s) = Ok false ↔
     line = Some (skip_warning p) ∨ ∃ msg, line = Some (file_error p msg)).
Proof.
  intros np line. subst line.
  destruct (processFile_events p s) as (b & fs & Hrun & HR).
  rewrite Hrun. simpl fst. fold np in HR.
  set (evs := events_of (processFile p) s) in *. clearbody evs. clear Hrun.
  assert (Hlast : ∀ (l : list Event) x, last (EvReadFile p :: l ++ [x]) = Some x).
  { intros l x. change (EvReadFile p :: l ++ [x]) with ((EvReadFile p :: l) ++ [x]).
    apply last_snoc. }
  assert (Hlast2 : ∀ (l : list Event) y x,
            last (EvReadFile p :: l ++ [y; x]) = Some x).
  { intros l y x. change (l ++ [y; x]) with (l ++ [y] ++ [x]).
    rewrite app_assoc. apply Hlast. }
  assert (Hlast3 : ∀ (l : list Event) z y x,
            last (EvReadFile p :: l ++ [z; y; x]) = Some x).
  { intros l z y x. change (l ++ [z; y; x]) with (l ++ [z; y] ++ [x]).
    rewrite app_assoc. apply Hlast. }
  unfold success_line, skip_warning, file_error.
  destruct HR; rewrite ?Hlast, ?Hlast2, ?Hlast3; simpl last;
    (split; split); try done;
    try (by left); try (by right; eexists);
    try (intros [?|[? ?]]; done).
Qed.

End OutcomeLine.

(** ** The further properties on the sample installation *)

Lemma source_never_lost_witness :
  let p := "proj/broken.ts" in
  let s := Sample.disk Cases.broken in
  let s' := snd (processFile (H := Sample.engine) p s) in
  (fst (processFile (H := Sample.engine) p s) = Ok false
   ∧ files s' !! p = Some "let @@ = ;")
  ∨ (fst (processFile (H := Sample.engine) p s) = Ok true
     ∧ files s' !! p = None
     ∧ ∃ code, pipeline (H := Sample.engine) "let @@ = ;" = Returns code ∧ code ≠ ""
               ∧ files s' !! "proj/broken.js" = Some code).
Proof.
  apply (source_never_lost (H := Sample.engine) "proj/broken.ts" "let @@ = ;"
           (Sample.disk Cases.broken)).
  vm_compute. reflexivity.
Defined.

Lemma conversion_without_output_witness :
  let p := "proj/empty.ts" in
  let s := Sample.disk Cases.blank in
  fst (processFile (H := Sample.engine) p s) = Ok false
  ∧ files (snd (processFile (H := Sample.engine) p s)) = files s
  ∧ events_of (processFile (H := Sample.engine) p) s
    = [EvReadFile p; EvTransform false ""; file_error p "Conversion failed"].
Proof.
  apply (conversion_without_output_fails (H := Sample.engine) "proj/empty.ts" ""
           (Sample.disk Cases.blank)).
  - apply (bool_decide_unpack (".ts" ∈ SUPPORTED_EXTENSIONS)). vm_compute. exact I.
  - vm_compute. reflexivity.
  - left. reflexivity.
Defined.

Lemma unlink_failure_witness :
  let p := "proj/a.ts" in
  let s' := snd (processFile (H := Sample.engine) p Cases.pinned) in
  fst (processFile (H := Sample.engine) p Cases.pinned) = Ok false
  ∧ files s' !! p = Some "let a: number = 1;"
  ∧ files s' !! "proj/a.js" = Some "let a: number = 1;"
  ∧ events_of (processFile (H := Sample.engine) p) Cases.pinned
    = [EvReadFile p; EvTransform false "let a: number = 1;";
       EvWriteFile "proj/a.js" "let a: number = 1;"; EvUnlink p;
       file_error p "EPERM: operation not permitted"].
Proof.
  apply (unlink_failure_leaves_both (H := Sample.engine) "proj/a.ts"
           "let a: number = 1;" "let a: number = 1;"
           "EPERM: operation not permitted" Cases.pinned).
  - apply (bool_decide_unpack (".ts" ∈ SUPPORTED_EXTENSIONS)). vm_compute. exact I.
  - vm_compute. reflexivity.
  - reflexivity.
  - discriminate.
  - reflexivity.
  - reflexivity.
Defined.

Lemma converted_output_witness :
  let s1 := snd (processFile (H := Sample.engine) "proj/a.ts"
                   (Sample.disk Sample.project)) in
  Path.extname "proj/a.js" = ".js"
  ∧ (".js" = ".js" ∨ ".js" = ".jsx")
  ∧ processFile (H := Sample.engine) "proj/a.js" s1
    = (Ok false, log_events s1 [skip_warning "proj/a.js"]).
Proof.
  apply (converted_output_is_skipped (H := Sample.engine) "proj/a.ts"
           (Sample.disk Sample.project)).
  vm_compute. reflexivity.
Defined.

Lemma nothing_left_witness :
  let s := Sample.disk (<[ "proj/a.js" := "let a = 1;" ]> ∅) in
  ∃ s',
    convertDirectory (H := Sample.engine) Sample.join "proj"
      (Returns Cases.converted) s
    = (Ok (0, 3), s')
    ∧ files s' = files s.
Proof.
  apply (nothing_left_to_convert (H := Sample.engine) Sample.join "proj"
           Cases.converted (Sample.disk (<[ "proj/a.js" := "let a = 1;" ]> ∅))).
  repeat apply List.Forall_cons; try apply List.Forall_nil.
  - apply (bool_decide_eq_false_1
             (JsString.toLowerCase (Path.extname "proj/a.js") ∈ SUPPORTED_EXTENSIONS)).
    vm_compute. reflexivity.
  - apply (bool_decide_eq_false_1
             (JsString.toLowerCase (Path.extname "proj/b.jsx") ∈ SUPPORTED_EXTENSIONS)).
    vm_compute. reflexivity.
  - apply (bool_decide_eq_false_1
             (JsString.toLowerCase (Path.extname "proj/c.json") ∈ SUPPORTED_EXTENSIONS)).
    vm_compute. reflexivity.
Defined.

Lemma passed_over_witness :
  let walk := forM_ (processEntry (H := Sample.engine) Sample.join "proj") in
  let s := Sample.disk Sample.project in
  walk ([EntFile "a.ts"]
        ++ EntDir ".git" (Returns [EntFile "config.ts"]) :: [EntFile "b.tsx"]) s
  = walk ([EntFile "a.ts"] ++ [EntFile "b.tsx"]) s.
Proof.
  apply (passed_over_entries_are_transparent (H := Sample.engine) Sample.join
           "proj" (EntDir ".git" (Returns [EntFile "config.ts"]))
           [EntFile "a.ts"] [EntFile "b.tsx"] (Sample.disk Sample.project)).
  right. exists "git". reflexivity.
Defined.

Lemma file_mode_witness :
  let s := Sample.disk Sample.project in
  main (H := Sample.engine) Sample.join (Sample.single "proj/a.ts") Cases.tree s
  = (Ok tt, snd (processFile (H := Sample.engine) "proj/a.ts" s)).
Proof.
  apply (file_mode_ignores_directory (H := Sample.engine) Sample.join
           (Sample.single "proj/a.ts") Cases.tree (Sample.disk Sample.project)
           "proj/a.ts").
  - reflexivity.
  - discriminate.
  - reflexivity.
Defined.

Lemma directory_mode_witness :
  let s := Sample.disk Sample.project in
  ∃ success failure s1,
    convertDirectory (H := Sample.engine) Sample.join "proj" Sample.project_tree s
    = (Ok (success, failure), s1)
    ∧ main (H := Sample.engine) Sample.join (Cases.scan "proj") Sample.project_tree s
      = (Ok tt, log_events s1 [summary_line success failure]).
Proof.
  apply (directory_mode_reports_counts (H := Sample.engine) Sample.join
           (Cases.scan "proj") Sample.project_tree (Sample.disk Sample.project)).
  - left. reflexivity.
  - reflexivity.
Defined.

(** The walk of a tree with a file, a hidden and an ignored directory, a
    link, an unreadable directory and a directory of two files: two files
    converted, one skipped, one directory that cannot be read. *)
Example walk_of_a_mixed_tree :
  counted_listing Cases.tree = 4
  ∧ fst (convertDirectory (H := Sample.engine) Sample.join "proj" Cases.tree
           (Sample.disk (<[ "proj/src/b.tsx" := "// tsx" ]> Sample.project)))
    = Ok (2, 2).
Proof. vm_compute. split; reflexivity. Qed.

(** ** The markup mode, the descent, the counters and the status on the
    sample installation *)

Lemma markup_mode_witness :
  let s := Sample.disk Cases.widget in
  fst (convertTypeScript (H := Cases.strict) Cases.widget_text s)
  = Ok (Some Cases.widget_text)
  ∧ pipeline_with (H := Cases.strict) false Cases.widget_text
    = Throws "Unexpected token"
  ∧ ∃ code,
      pipeline_with (H := Cases.strict) true Cases.widget_text = Returns code
      ∧ files (snd (processFile (H := Cases.strict) "proj/w.ts" s)) !! "proj/w.js"
        = Some code.
Proof.
  destruct (markup_mode_is_substring_test (H := Cases.strict) "proj/w.ts"
              Cases.widget_text (Sample.disk Cases.widget) true)
    as (Hresult & _ & _ & _ & Hwritten).
  { split; [intros _ | reflexivity].
    apply (includes_spec Cases.widget_text "tsx"). vm_compute. reflexivity. }
  split; [exact Hresult|]. split; [vm_compute; reflexivity|].
  apply Hwritten; vm_compute; reflexivity.
Defined.

Lemma directory_entered_witness :
  let s := Sample.disk Cases.nested in
  let src := EntDir "src" (Returns [EntFile "b.tsx"; EntFile "c.json"]) in
  ∃ s',
    processEntry (H := Sample.engine) Sample.join "proj" src s = (Ok tt, s')
    ∧ successCount s' + failureCount s' = 2
    ∧ ∃ s1 s2,
        forM_ (processEntry (H := Sample.engine) Sample.join "proj/src")
          [EntFile "b.tsx"] (log_events s [EvReaddir "proj/src"]) = (Ok tt, s1)
        ∧ processEntry (H := Sample.engine) Sample.join "proj/src"
            (EntFile "c.json") s1 = (Ok tt, s2)
        ∧ forM_ (processEntry (H := Sample.engine) Sample.join "proj/src") [] s2
          = (Ok tt, s').
Proof.
  destruct (directory_entered_iff_not_ignored (H := Sample.engine) Sample.join
              "proj" "src" (Returns [EntFile "b.tsx"; EntFile "c.json"])
              (Sample.disk Cases.nested)) as (_ & Hentered & _).
  destruct Hentered as (s' & Hrun & Hcount & Hwalk).
  - apply (bool_decide_eq_false_1 ("src" ∈ IGNORED_DIRS)). vm_compute. reflexivity.
  - intros [rest Hrest]. discriminate Hrest.
  - exists s'. split; [exact Hrun|]. split; [exact Hcount|].
    destruct (Hwalk _ eq_refl) as [_ Heach].
    exact (Heach [EntFile "b.tsx"] (EntFile "c.json") [] eq_refl).
Defined.

Lemma file_entry_witness :
  let s := Sample.disk Cases.dotted in
  ∃ b s1 s',
    processFile (H := Sample.engine) "proj/.setup.ts" s = (Ok b, s1)
    ∧ trace s1 = trace s ++ events_of (processFile (H := Sample.engine) "proj/.setup.ts") s
    ∧ processEntry (H := Sample.engine) Sample.join "proj" (EntFile ".setup.ts") s
      = (Ok tt, s')
    ∧ files s' = files s1 ∧ trace s' = trace s1 ∧ fails s' = fails s1
    ∧ successCount s' = successCount s + (if b then 1 else 0)
    ∧ failureCount s' = failureCount s + (if b then 0 else 1).
Proof.
  exact (file_entries_always_converted (H := Sample.engine) Sample.join
           "proj" ".setup.ts" (Sample.disk Cases.dotted)).
Defined.

(** A hidden file is converted and counted as a success; a file with the
    name of an ignored directory is skipped by its extension and counted as
    a failure. *)
Example hidden_and_ignored_names :
  fst (convertDirectory (H := Sample.engine) Sample.join "proj"
         (Returns [EntFile ".setup.ts"; EntFile "node_modules"])
         (Sample.disk Cases.dotted))
  = Ok (1, 1).
Proof. vm_compute. reflexivity. Qed.

Lemma completed_run_witness :
  let s := Sample.disk Sample.project in
  ∃ success failure s1,
    convertDirectory (H := Sample.engine) Sample.join "proj" Sample.project_tree s
    = (Ok (success, failure), s1)
    ∧ exit_status (H := Sample.engine) Sample.join (Cases.scan "proj")
        Sample.project_tree s
      = (0%Z, log_events s1 [summary_line success failure]).
Proof.
  destruct (completed_run_exits_zero (H := Sample.engine) Sample.join
              (Cases.scan "proj") Sample.project_tree (Sample.disk Sample.project))
    as (_ & _ & Hwalk).
  exact (Hwalk eq_refl eq_refl).
Defined.

(** The run of the project directory counts one failure and its status is
    zero. *)
Example status_with_a_failure :
  let run := exit_status (H := Sample.engine) Sample.join (Cases.scan "proj")
               Sample.project_tree (Sample.disk Sample.project) in
  fst run = 0%Z
  ∧ last (trace (snd run))
    = Some (summary_line 2 1).
Proof. vm_compute. split; reflexivity. Qed.
